(** * The project-files tree view

    A shallow embedding of [src/windows/views/files_treeview.py]: the media
    import of [FilesTreeView.is_image], [add_file] and [dropEvent], the
    selection and menu code of [updateSelection], [contextMenuEvent] and
    [startDrag], and the edit of a row in [value_updated], with the
    properties of the import pipeline that the specification states and
    further properties that the code shows.

    Python values are modelled as follows.
    - [str] is [string]; [str.lower] acts on the letters [A]..[Z], the only
      characters that can reach one of the (ASCII) image suffixes.
    - A call that can raise returns a [result]; the statements of a method
      thread the [world] (project data and the calls made on collaborators)
      through the monad [M].  Effects made before an exception stay made.
    - The dictionary parsed from the reader's JSON is the record [file_data],
      restricted to the keys that [add_file] reads or writes; the dictionary
      that [value_updated] edits is a [dict] in insertion order. *)

From Stdlib Require Import String Ascii List Bool Arith Lia.
Import ListNotations.
Local Open Scope string_scope.
Local Open Scope list_scope.

(** ** Strings *)

(** [c.lower()] for one character. *)
Definition lower_char (c : ascii) : ascii :=
  let n := nat_of_ascii c in
  if ((65 <=? n) && (n <=? 90))%nat then ascii_of_nat (n + 32) else c.

(** [s.lower()]. *)
Fixpoint lower (s : string) : string :=
  match s with
  | EmptyString => EmptyString
  | String c t => String (lower_char c) (lower t)
  end.

(** [s.endswith(suffix)]: [s] is [suffix], or the rest of [s] ends with it. *)
Fixpoint endswith (s suffix : string) : bool :=
  (s =? suffix) ||
  match s with
  | EmptyString => false
  | String _ t => endswith t suffix
  end.

(** [s.endswith((suffix1, suffix2, ...))]. *)
Definition endswith_any (s : string) (suffixes : list string) : bool :=
  existsb (endswith s) suffixes.

(** [c in s] for a one-character [c]. *)
Fixpoint contains (c : ascii) (s : string) : bool :=
  match s with
  | EmptyString => false
  | String d t => (d =? c)%char || contains c t
  end.

(** [os.path.split(filepath)[1]]: what follows the last separator. *)
Fixpoint basename (s : string) : string :=
  match s with
  | EmptyString => EmptyString
  | String c t =>
      if contains "/" t then basename t
      else if (c =? "/")%char then t else s
  end.

(** ** Exceptions and the state monad of a method body *)

Inductive exn : Type :=
  | IndexError                 (* string index out of range *)
  | LibraryError (what : string). (* raised by libopenshot or the JSON parser *)

Inductive result (A : Type) : Type :=
  | Ret (a : A)
  | Raise (e : exn).
Arguments Ret {A} a.
Arguments Raise {A} e.

(** ** Project data *)

Inductive MediaType : Type := video | image | audio.

(** [file_data]: the keys of the reader's dictionary that the view uses.
    [media_type] is [None] while the key is absent. *)
Record file_data : Type := mk_file_data {
  path : string;
  has_video : bool;
  has_audio : bool;
  media_type : option MediaType
}.

(** The calls a method makes on its collaborators, in program order. *)
Inductive event : Type :=
  | EvClip (filepath : string)     (* openshot.Clip(filepath) *)
  | EvMsgBox (filename : string)   (* QMessageBox: "... is not a valid ... file." *)
  | EvLogInfo (filepath : string)  (* log.info('Adding file: ...') *)
  | EvAccept.                      (* event.accept() *)

Record world : Type := mk_world {
  files : list file_data;   (* the File records of the project data *)
  events : list event
}.

Definition M (A : Type) : Type := world -> result A * world.

Definition ret {A} (a : A) : M A := fun w => (Ret a, w).

Definition raise {A} (e : exn) : M A := fun w => (Raise e, w).

Definition bind {A B} (m : M A) (k : A -> M B) : M B :=
  fun w =>
    match m w with
    | (Ret a, w') => k a w'
    | (Raise e, w') => (Raise e, w')
    end.

(** [try: body except: handler]: the bare [except] takes every exception. *)
Definition try_except {A} (body : M A) (handler : M A) : M A :=
  fun w =>
    match body w with
    | (Ret a, w') => (Ret a, w')
    | (Raise _, w') => handler w'
    end.

Definition lift {A} (r : result A) : M A := fun w => (r, w).

Definition emit (e : event) : M unit :=
  fun w => (Ret tt, mk_world (files w) (events w ++ [e])).

Declare Scope py_scope.
Delimit Scope py_scope with py.
Notation "x <- m ;; k" := (bind m (fun x => k))
  (at level 100, m at next level, right associativity) : py_scope.
Notation "m ;;; k" := (bind m (fun _ => k))
  (at level 100, right associativity) : py_scope.
Local Open Scope py_scope.

(** ** Collaborators *)

(** A constructed [openshot.Clip]: all that [add_file] asks of it is
    [json.loads(clip.Reader().Json())], a dictionary or an exception. *)
Record Clip_obj : Type := mk_clip {
  Reader_Json : result file_data
}.

(** The media library and the file system the view runs against. *)
Record env : Type := mk_env {
  Clip : string -> result Clip_obj;   (* openshot.Clip(filepath) *)
  path_exists : string -> bool;       (* os.path.exists *)
  path_isfile : string -> bool        (* os.path.isfile *)
}.

Definition openshot_Clip (E : env) (filepath : string) : M Clip_obj :=
  emit (EvClip filepath) ;;; lift (Clip E filepath).

(** Modelled from the spec: [classes.query.File] is not part of the sources
    at hand.  The spec's AssetRegistry is "a lookup keyed by path" with
    [findByPath(path) -> AssetRecord | None]; [File.get(path=filepath)] is
    that lookup over the project's file records. *)
Definition File_get (filepath : string) (w : world) : option file_data :=
  find (fun f => path f =? filepath) (files w).

(** Modelled from the spec: [insert(record) -> void] of the AssetRegistry;
    [file.save()] on a fresh [File()] adds its data as a new record. *)
Definition File_save (data : file_data) : M unit :=
  fun w => (Ret tt, mk_world (files w ++ [data]) (events w)).

(** ** [FilesTreeView.is_image] *)

Definition image_suffixes : list string :=
  [".jpg"; ".jpeg"; ".png"; ".bmp"; ".svg"; ".thm"; ".gif"; ".bmp"; ".pgm";
   ".tif"; ".tiff"].

Definition is_image (file : file_data) : bool :=
  let p := lower (path file) in
  if endswith_any p image_suffixes then true else false.

(** ** [FilesTreeView.add_file] *)

(** The [if]/[elif] chain that determines the media type; [None] when no
    branch is taken. *)
Definition classify (hasVideo hasAudio isImageExtension : bool)
  : option MediaType :=
  if hasVideo && negb isImageExtension then Some video
  else if hasVideo && isImageExtension then Some image
  else if hasAudio && negb hasVideo then Some audio
  else None.

(** [file_data["media_type"] = ...] in the branch taken, if any. *)
Definition set_media_type (fd : file_data) : file_data :=
  match classify (has_video fd) (has_audio fd) (is_image fd) with
  | Some t => mk_file_data (path fd) (has_video fd) (has_audio fd) (Some t)
  | None => fd
  end.

(** What [add_file] returns: [return], [return True], [return False]. *)
Inductive pyval : Type := PyNone | PyTrue | PyFalse.

Definition truthy (v : pyval) : bool :=
  match v with PyTrue => true | _ => false end.

Definition add_file (E : env) (filepath : string) : M pyval :=
  let filename := basename filepath in
  fun w =>
    match File_get filepath w with
    | Some _ => ret PyNone w
    | None =>
        (clip <- openshot_Clip E filepath ;;
         try_except
           (fd <- lift (Reader_Json clip) ;;
            File_save (set_media_type fd) ;;;
            ret PyTrue)
           (emit (EvMsgBox filename) ;;;
            ret PyFalse)) w
    end.

(** ** [FilesTreeView.dropEvent] *)

(** [urlparse(uri.toString())]: the two components the handler reads. *)
Record url : Type := mk_url {
  scheme : string;
  urlpath : string
}.

(** [filepath[0]]. *)
Definition first_char (s : string) : result ascii :=
  match s with
  | EmptyString => Raise IndexError
  | String c _ => Ret c
  end.

(** [filepath[1:]]. *)
Definition from_1 (s : string) : string :=
  match s with
  | EmptyString => EmptyString
  | String _ t => t
  end.

(** [if filepath[0] == "/" and ":" in filepath: filepath = filepath[1:]] *)
Definition strip_drive_slash (filepath : string) : result string :=
  match first_char filepath with
  | Raise e => Raise e
  | Ret c =>
      if (c =? "/")%char && contains ":" filepath
      then Ret (from_1 filepath)
      else Ret filepath
  end.

(** What one iteration of the loop did with its URI. *)
Inductive item : Type :=
  | NotFileScheme           (* scheme is not "file": nothing done *)
  | NotFound                (* no such regular file: nothing done *)
  | Added (r : pyval).      (* add_file was called and returned r *)

(** The body of [for uri in event.mimeData().urls()]. *)
Definition drop_one (E : env) (uri : url) : M item :=
  if scheme uri =? "file" then
    filepath <- lift (strip_drive_slash (urlpath uri)) ;;
    if path_exists E filepath && path_isfile E filepath then
      emit (EvLogInfo filepath) ;;;
      r <- add_file E filepath ;;
      (if truthy r then emit EvAccept else ret tt) ;;;
      ret (Added r)
    else ret NotFound
  else ret NotFileScheme.

(** The loop.  The handler returns nothing; the list is what each iteration
    did, in order.  An exception leaves the loop and the handler. *)
Fixpoint dropEvent (E : env) (urls : list url) : M (list item) :=
  match urls with
  | [] => ret []
  | uri :: rest =>
      i <- drop_one E uri ;;
      more <- dropEvent E rest ;;
      ret (i :: more)
  end.

(** ** The vocabulary of the specification *)

Inductive reason : Type := unreadable | unclassifiable | not_found.

Inductive ImportResult : Type :=
  | AlreadyExists
  | Rejected (why : reason)
  | Imported.

(** How the specification reads the value [add_file] returns: [None] after
    the early [return], [True] after [file.save()], [False] from the
    [except] branch, the only rejection the method has. *)
Definition ImportResult_of (r : pyval) : ImportResult :=
  match r with
  | PyNone => AlreadyExists
  | PyTrue => Imported
  | PyFalse => Rejected unreadable
  end.

(** The extension set as the specification lists it. *)
Definition image_extensions : list string :=
  ["jpg"; "jpeg"; "png"; "bmp"; "svg"; "thm"; "gif"; "pgm"; "tif"; "tiff"].

(** The specification's [isImageExtension]: the lowercased path ends with a
    dot followed by one of [image_extensions]. *)
Definition isImageExtension (p : string) : bool :=
  existsb (fun ext => endswith (lower p) ("." ++ ext)%string) image_extensions.

(** A path without its leading separator, if it has one. *)
Definition strip_leading_separator (p : string) : string :=
  match p with
  | String "/" t => t
  | _ => p
  end.

(** The handler's path resolution in closed form: the leading separator is
    taken off exactly when the path contains a colon, wherever the colon
    stands ([":" in filepath] is all the code asks). *)
Definition normalize_spec (p : string) : string :=
  if contains ":" p then strip_leading_separator p else p.




(** A record with this path is in the project data. *)
Definition registered (p : string) (w : world) : Prop :=
  In p (map path (files w)).

(** No two records share a path. *)
Definition unique_paths (w : world) : Prop :=
  NoDup (map path (files w)).

(** The reader's dictionary names the file the clip was opened on, as
    libopenshot's readers do. *)
Definition reports_path (E : env) : Prop :=
  forall p c fd, Clip E p = Ret c -> Reader_Json c = Ret fd -> path fd = p.

(** Constructing a clip does not raise: a file that no reader opens shows
    as an exception from [clip.Reader()]. *)
Definition clip_constructs (E : env) : Prop :=
  forall p, exists c, Clip E p = Ret c.

(** The operations of the pipeline, as the user interface issues them; the
    world an operation leaves is the one the next operation starts from,
    also when the operation ended in an exception. *)
Inductive op : Type :=
  | importFile (filepath : string)
  | importBatch (urls : list url).

Definition run_op (E : env) (o : op) (w : world) : world :=
  match o with
  | importFile filepath => snd (add_file E filepath w)
  | importBatch urls => snd (dropEvent E urls w)
  end.

Fixpoint run_ops (E : env) (ops : list op) (w : world) : world :=
  match ops with
  | [] => w
  | o :: rest => run_ops E rest (run_op E o w)
  end.

(** [events w ++ [e]] as a world. *)
Definition after_event (w : world) (e : event) : world :=
  mk_world (files w) (events w ++ [e]).

(** ** A small studio to evaluate the methods on *)

Definition empty_project : world := mk_world [] [].

Definition studio_reader (p : string) : result file_data :=
  if p =? "/m/broken.avi" then Raise (LibraryError "ReaderClosed")
  else if p =? "/m/blank.dat" then Ret (mk_file_data p false false None)
  else if p =? "/m/song.mp3" then Ret (mk_file_data p false true None)
  else Ret (mk_file_data p true true None).

(** Every path but [/m/gone.mp4] is a regular file; clips always construct. *)
Definition studio : env :=
  mk_env (fun p => Ret (mk_clip (studio_reader p)))
         (fun p => negb (p =? "/m/gone.mp4"))
         (fun p => negb (p =? "/m/gone.mp4")).

(** The same file system with a library whose [Clip] constructor raises. *)
Definition brittle_studio : env :=
  mk_env (fun p => Raise (LibraryError "InvalidFile"))
         (path_exists studio)
         (path_isfile studio).

Definition file_url (p : string) : url := mk_url "file" p.



(** A dropped URI whose path component, when it is a file URI, is not
    the empty string. *)
Definition has_path (u : url) : Prop :=
  scheme u = "file" -> urlpath u <> "".

(** The regular-file test of the handler on a resolved path. *)
Definition is_regular_file (E : env) (filepath : string) : bool :=
  path_exists E filepath && path_isfile E filepath.

(** ** [FilesTreeView.updateSelection], [contextMenuEvent], [startDrag] *)

(** A [QModelIndex] of the files model: the cell it points at. *)
Record QModelIndex : Type := mk_index {
  row : nat;
  column : nat
}.

(** [self.files_model.model.item(row, column).text()]. *)
Definition table : Type := nat -> nat -> string.

(** [selected_row not in rows]. *)
Definition in_rows (selected_row : nat) (rows : list nat) : bool :=
  existsb (Nat.eqb selected_row) rows.

(** One turn of [for selection in self.selected], on the two lists
    [rows] and [self.win.selected_files]. *)
Definition select_one (t : table) (acc : list nat * list string)
  (selection : QModelIndex) : list nat * list string :=
  let selected_row := row selection in
  if negb (in_rows selected_row (fst acc))
  then (fst acc ++ [selected_row], snd acc ++ [t selected_row 5])
  else acc.

(** The loop, from [rows = []] and [selected_files = []]. *)
Definition selection_loop (t : table) (selected : list QModelIndex)
  : list nat * list string :=
  fold_left (select_one t) selected ([], []).

(** What [updateSelection] leaves in [self.selected] and
    [self.win.selected_files]. *)
Record selection : Type := mk_selection {
  selected : list QModelIndex;
  selected_files : list string
}.

Definition updateSelection (t : table) (selectedIndexes : list QModelIndex)
  : selection :=
  mk_selection selectedIndexes (snd (selection_loop t selectedIndexes)).

(** The rows of a list in the order in which they first occur. *)
Fixpoint first_occurrences (l : list nat) : list nat :=
  match l with
  | [] => []
  | x :: rest =>
      x :: filter (fun y => negb (y =? x)%nat) (first_occurrences rest)
  end.

(** The entries of a [QMenu], top to bottom. *)
Inductive menu_entry : Type :=
  | Action (name : string)
  | Separator.

Record context_menu : Type := mk_context_menu {
  menu_selection : selection;     (* after self.updateSelection() *)
  context_menu_object : string;   (* app.context_menu_object *)
  menu : list menu_entry          (* shown by menu.exec_ *)
}.

Definition contextMenuEvent (t : table) (selectedIndexes : list QModelIndex)
  : context_menu :=
  let sel := updateSelection t selectedIndexes in
  let menu0 := [Action "actionImportFiles"; Separator] in
  let menu1 :=
    match selected sel with
    | [] => menu0
    | _ :: _ =>
        menu0 ++ [Action "actionPreview_File"; Action "actionSplitClip";
                  Action "actionAdd_to_Timeline"; Separator;
                  Action "actionRemove_from_Project"; Separator]
    end in
  mk_context_menu sel "files" (menu1 ++ [Action "actionThumbnailView"]).

(** No separator opens or closes the menu or follows another one. *)
Fixpoint separators_apart (after_separator : bool) (m : list menu_entry)
  : bool :=
  match m with
  | [] => negb after_separator
  | Separator :: rest => negb after_separator && separators_apart true rest
  | Action _ :: rest => separators_apart false rest
  end.

(** The [QDrag] on which [startDrag] calls [exec_]: whose icon it shows,
    at which size, its hot spot, and the indexes its mime data is made
    from. *)
Record drag : Type := mk_drag {
  icon_row : nat;                  (* model.item(selected_row, 0).icon() *)
  pixmap_size : nat * nat;         (* QSize(drag_item_size, drag_item_size) *)
  hot_spot : nat * nat;            (* QPoint(drag_item_size / 2, ...) *)
  mime_indexes : list QModelIndex  (* model.mimeData(selectedIndexes()) *)
}.

Definition drag_item_size : nat := 48.

(** [l[0]] on a Python list. *)
Definition list_first {A} (l : list A) : result A :=
  match l with
  | [] => Raise IndexError
  | x :: _ => Ret x
  end.

(** [startDrag]; [Ret d] is [drag.exec_()] reached with the drag [d].
    [self.drag_item_size / 2] is the float [24.0], and what
    [QPoint(24.0, 24.0)] does is a matter of the PyQt5 and Python at hand:
    [QPoint_float_error] is the exception it raises on float arguments
    ([TypeError] where floats are no longer converted), or [None] where it
    takes them as the integers they are. *)
Definition startDrag (QPoint_float_error : option exn)
  (selectedIndexes : list QModelIndex) : result drag :=
  match list_first selectedIndexes with
  | Raise e => Raise e
  | Ret first =>
      let selected_row := row first in
      match QPoint_float_error with
      | Some e => Raise e
      | None =>
          Ret (mk_drag selected_row (drag_item_size, drag_item_size)
                       (drag_item_size / 2, drag_item_size / 2)
                       selectedIndexes)
      end
  end.

(** ** [FilesTreeView.value_updated] *)

(** The values of a file's data dictionary that the method meets. *)
Inductive pyobj : Type :=
  | PStr (s : string)
  | PBool (b : bool)
  | PNull.

(** A [dict] with its keys in insertion order. *)
Definition dict : Type := list (string * pyobj).

(** [d[k]], [None] for a [KeyError]. *)
Fixpoint dict_get (k : string) (d : dict) : option pyobj :=
  match d with
  | [] => None
  | (k', v) :: rest => if k' =? k then Some v else dict_get k rest
  end.

(** [d[k] = v]. *)
Fixpoint dict_set (k : string) (v : pyobj) (d : dict) : dict :=
  match d with
  | [] => [(k, v)]
  | (k', v') :: rest =>
      if k' =? k then (k, v) :: rest else (k', v') :: dict_set k v rest
  end.

(** [k in d.keys()]. *)
Definition dict_has (k : string) (d : dict) : bool :=
  match dict_get k d with
  | Some _ => true
  | None => false
  end.

(** [s != v] for a string [s]. *)
Definition str_differs (s : string) (v : pyobj) : bool :=
  match v with
  | PStr s' => negb (s =? s')
  | _ => true
  end.

Inductive pyerror : Type :=
  | AttributeError           (* f is None *)
  | KeyError (key : string)
  | SaveError (what : string). (* raised inside f.save() *)

Inductive outcome (A : Type) : Type :=
  | Done (a : A)
  | Failed (e : pyerror).
Arguments Done {A} a.
Arguments Failed {A} e.

(** The assignments to [f.data]: the name, then the tags. *)
Definition edit_name_tags (name tags : string) (data : dict) : outcome dict :=
  match dict_get "path" data with
  | None => Failed (KeyError "path")
  | Some p =>
      let data1 :=
        if str_differs name p then dict_set "name" (PStr name) data
        else dict_set "name" (PStr "") data in
      match dict_get "tags" data1 with
      | Some old =>
          if str_differs tags old then Done (dict_set "tags" (PStr tags) data1)
          else Done data1
      | None =>
          if negb (tags =? "") then Done (dict_set "tags" (PStr tags) data1)
          else Done data1
      end
  end.

(** The project data seen from [value_updated]: what [File.get(id=...)]
    finds, and what [f.save()] raises, if anything. *)
Record query : Type := mk_query {
  get_by_id : string -> option dict;
  save_error : dict -> option pyerror
}.

(** The files model: its flag, and the data of the saves made so far, each
    with the value of the flag while it ran. *)
Record files_model : Type := mk_files_model {
  ignore_update_signal : bool;
  saves : list (bool * dict)
}.

Definition value_updated (Q : query) (t : table) (item_row : nat)
  (fm : files_model) : outcome unit * files_model :=
  let file_id := t item_row 5 in
  let name := t item_row 1 in
  let tags := t item_row 2 in
  match get_by_id Q file_id with
  | None => (Failed AttributeError, fm)
  | Some data =>
      match edit_name_tags name tags data with
      | Failed e => (Failed e, fm)
      | Done data' =>
          match save_error Q data' with
          | Some e => (Failed e, mk_files_model true (saves fm))
          | None =>
              (Done tt, mk_files_model false (saves fm ++ [(true, data')]))
          end
      end
  end.

(** ** Counting what a drop did *)

Definition is_accept (e : event) : bool :=
  match e with EvAccept => true | _ => false end.

(** How often [event.accept()] was called. *)
Definition accepts (w : world) : nat :=
  length (filter is_accept (events w)).


(** A row of the files model to evaluate [value_updated] on. *)
Definition demo_table : table :=
  fun r c =>
    match c with
    | 1 => "Holiday"
    | 2 => "beach"
    | 5 => "F1"
    | _ => ""
    end.

Definition demo_query : query :=
  mk_query
    (fun id => if id =? "F1"
               then Some [("id", PStr "F1"); ("path", PStr "/m/clip.mp4");
                          ("has_video", PBool true)]
               else None)
    (fun _ => None).

(** The files model after [itemChanged] fired for each of [rows] in turn;
    an exception ends one call, not the signals that follow. *)
Definition value_updates (Q : query) (t : table) (rows : list nat)
  (fm : files_model) : files_model :=
  fold_left (fun fm item_row => snd (value_updated Q t item_row fm)) rows fm.

(** Every save so far ran while updates were ignored. *)
Definition saved_quietly (fm : files_model) : Prop :=
  Forall (fun s => fst s = true) (saves fm).

(** The drop loop takes the file of [u] into the project under path [p]:
    [u] is a file URI whose resolved path [p] is a regular file that a
    reader opens. *)
Definition importable (E : env) (u : url) (p : string) : Prop :=
  scheme u = "file" /\ urlpath u <> "" /\
  p = normalize_spec (urlpath u) /\
  is_regular_file E p = true /\
  exists c fd, Clip E p = Ret c /\ Reader_Json c = Ret fd.

(** Unfolds the monad of a method body. *)
Ltac run_method :=
  unfold openshot_Clip, File_save, try_except, bind, lift, emit, ret,
    after_event in *;
  cbn [fst snd files events] in *.

(** * Properties *)

(** ** Strings *)

Lemma endswith_refl (s : string) : endswith s s = true.
Proof.
  destruct s; cbn [endswith]; rewrite String.eqb_refl; reflexivity.
Qed.

Lemma endswith_iff (s suffix : string) :
  endswith s suffix = true <-> exists stem, s = (stem ++ suffix)%string.
Proof.
  induction s as [|c t IH]; cbn [endswith].
  - rewrite orb_false_r, String.eqb_eq. split.
    + intros <-. exists "". reflexivity.
    + intros [stem H]. destruct stem; simpl in H; [assumption | discriminate].
  - rewrite orb_true_iff, String.eqb_eq, IH. split.
    + intros [<- | [stem ->]].
      * exists "". reflexivity.
      * exists (String c stem). reflexivity.
    + intros [[|d stem] H]; simpl in H.
      * left. assumption.
      * right. injection H as _ ->. exists stem. reflexivity.
Qed.

Lemma lower_char_idem (c : ascii) : lower_char (lower_char c) = lower_char c.
Proof.
  destruct c as [[] [] [] [] [] [] [] []]; reflexivity.
Qed.

Lemma lower_idem (s : string) : lower (lower s) = lower s.
Proof.
  induction s as [|c t IH]; simpl; [|rewrite lower_char_idem, IH]; reflexivity.
Qed.

Lemma is_image_suffixes (s : string) :
  endswith_any s image_suffixes =
  existsb (fun ext => endswith s ("." ++ ext)%string) image_extensions.
Proof.
  unfold endswith_any, image_suffixes, image_extensions, existsb.
  cbn [append].
  destruct (endswith s ".bmp"); simpl; rewrite ?orb_true_r; reflexivity.
Qed.

(** ** [classify] and [is_image] *)

(** C1: the media type is decided by the precedence chain: video when the
    reader has video and the path has no image extension, image when it has
    video and an image extension, audio when it has audio and no video, and
    nothing ([None], no default type) in every remaining case. *)
Theorem classify_precedence :
  (forall hasAudio, classify true hasAudio false = Some video) /\
  (forall hasAudio, classify true hasAudio true = Some image) /\
  (forall isImageExtension, classify false true isImageExtension = Some audio) /\
  (forall isImageExtension, classify false false isImageExtension = None) /\
  (forall hv ha img,
     classify hv ha img =
     if hv then (if img then Some image else Some video)
     else if ha then Some audio else None) /\
  classify true false false = Some video /\
  classify true false true = Some image /\
  classify false true false = Some audio /\
  classify false false false = None.
Proof.
  split; [reflexivity|].
  split; [reflexivity|].
  split; [intros []; reflexivity|].
  split; [intros []; reflexivity|].
  split; [intros [] [] []; reflexivity|].
  repeat split.
Qed.

(** C9: [is_image] holds exactly when the lowercased path ends with a dot
    followed by one of jpg, jpeg, png, bmp, svg, thm, gif, pgm, tif, tiff.
    It reads nothing but the path string and ignores its case; it accepts
    [a.PNG] and refuses [a.mov]. *)
Theorem is_image_iff_extension :
  (forall file, is_image file = isImageExtension (path file)) /\
  (forall file,
     is_image file = true <->
     exists ext stem,
       In ext image_extensions /\
       lower (path file) = (stem ++ "." ++ ext)%string) /\
  (forall p hv ha mt,
     is_image (mk_file_data (lower p) hv ha mt) =
     is_image (mk_file_data p hv ha mt)) /\
  (forall hv ha mt, is_image (mk_file_data "a.PNG" hv ha mt) = true) /\
  (forall hv ha mt, is_image (mk_file_data "a.mov" hv ha mt) = false).
Proof.
  assert (E : forall file, is_image file = isImageExtension (path file)).
  { intros file. unfold is_image, isImageExtension.
    rewrite is_image_suffixes.
    destruct (existsb _ _); reflexivity. }
  split; [exact E|].
  split.
  { intros file. rewrite E. unfold isImageExtension. rewrite existsb_exists.
    split.
    - intros (ext & Hin & Hend). apply endswith_iff in Hend as [stem Hs].
      exists ext, stem. split; assumption.
    - intros (ext & stem & Hin & Hs). exists ext. split; [assumption|].
      apply endswith_iff. exists stem. assumption. }
  split.
  { intros p hv ha mt. rewrite !E. cbn [path]. unfold isImageExtension.
    rewrite lower_idem. reflexivity. }
  split; reflexivity.
Qed.

(** ** The project data *)

Lemma File_get_registered (p : string) (w : world) :
  File_get p w <> None <-> registered p w.
Proof.
  unfold File_get, registered. induction (files w) as [|f l IH]; simpl.
  - split; [congruence | intros []].
  - destruct (path f =? p) eqn:Heq.
    + apply String.eqb_eq in Heq. split; [auto | discriminate].
    + apply String.eqb_neq in Heq. rewrite IH. split; [auto | intros [|]; tauto].
Qed.

Lemma File_get_unregistered (p : string) (w : world) :
  File_get p w = None <-> ~ registered p w.
Proof.
  rewrite <- File_get_registered. destruct (File_get p w) as [f|].
  - split; [discriminate | intros H; exfalso; apply H; discriminate].
  - split; [intros _ H; apply H; reflexivity | reflexivity].
Qed.

Lemma path_set_media_type (fd : file_data) :
  path (set_media_type fd) = path fd.
Proof.
  unfold set_media_type. destruct (classify _ _ _); reflexivity.
Qed.

(** ** The four ways through [add_file] *)

Lemma add_file_found (E : env) (p : string) (w : world) :
  registered p w -> add_file E p w = (Ret PyNone, w).
Proof.
  intros H. apply File_get_registered in H. unfold add_file.
  destruct (File_get p w); [reflexivity | congruence].
Qed.

Lemma add_file_clip_raises (E : env) (p : string) (w : world) (e : exn) :
  ~ registered p w -> Clip E p = Raise e ->
  add_file E p w = (Raise e, after_event w (EvClip p)).
Proof.
  intros H HC. apply File_get_unregistered in H. unfold add_file.
  rewrite H. run_method. rewrite HC. reflexivity.
Qed.

Lemma add_file_reader_raises (E : env) (p : string) (w : world) c (e : exn) :
  ~ registered p w -> Clip E p = Ret c -> Reader_Json c = Raise e ->
  add_file E p w =
  (Ret PyFalse,
   after_event (after_event w (EvClip p)) (EvMsgBox (basename p))).
Proof.
  intros H HC HR. apply File_get_unregistered in H. unfold add_file.
  rewrite H. run_method. rewrite HC, HR. reflexivity.
Qed.

Lemma add_file_saves (E : env) (p : string) (w : world) c (fd : file_data) :
  ~ registered p w -> Clip E p = Ret c -> Reader_Json c = Ret fd ->
  add_file E p w =
  (Ret PyTrue,
   mk_world (files w ++ [set_media_type fd]) (events w ++ [EvClip p])).
Proof.
  intros H HC HR. apply File_get_unregistered in H. unfold add_file.
  rewrite H. run_method. rewrite HC, HR. reflexivity.
Qed.

(** The four ways are all there are. *)
Lemma add_file_cases (E : env) (p : string) (w : world) :
  (registered p w /\ add_file E p w = (Ret PyNone, w)) \/
  (~ registered p w /\ exists e,
     Clip E p = Raise e /\
     add_file E p w = (Raise e, after_event w (EvClip p))) \/
  (~ registered p w /\ exists c e,
     Clip E p = Ret c /\ Reader_Json c = Raise e /\
     add_file E p w =
     (Ret PyFalse,
      after_event (after_event w (EvClip p)) (EvMsgBox (basename p)))) \/
  (~ registered p w /\ exists c fd,
     Clip E p = Ret c /\ Reader_Json c = Ret fd /\
     add_file E p w =
     (Ret PyTrue,
      mk_world (files w ++ [set_media_type fd]) (events w ++ [EvClip p]))).
Proof.
  destruct (File_get p w) eqn:Hget.
  - left. assert (H : registered p w)
      by (apply File_get_registered; congruence).
    split; [assumption | apply add_file_found; assumption].
  - right. apply File_get_unregistered in Hget.
    destruct (Clip E p) as [c|e] eqn:HC.
    + right. destruct (Reader_Json c) as [fd|e] eqn:HR.
      * right. split; [assumption|]. exists c, fd.
        repeat split; try assumption. eapply add_file_saves; eassumption.
      * left. split; [assumption|]. exists c, e.
        repeat split; try assumption.
        eapply add_file_reader_raises; eassumption.
    + left. split; [assumption|]. exists e.
      split; [reflexivity | apply add_file_clip_raises; assumption].
Qed.

Lemma studio_reports_path : reports_path studio.
Proof.
  intros p c fd HC HR. simpl in HC. injection HC as <-. simpl in HR.
  unfold studio_reader in HR.
  repeat match type of HR with
         | (if ?b then _ else _) = _ => destruct b
         end; try discriminate; injection HR as <-; reflexivity.
Qed.

Lemma studio_clip_constructs : clip_constructs studio.
Proof.
  intros p. eexists. reflexivity.
Qed.

Lemma registered_after_event (p : string) (w : world) (e : event) :
  registered p (after_event w e) <-> registered p w.
Proof. reflexivity. Qed.

Lemma registered_after_save (w : world) (fd : file_data) (ev : list event) :
  registered (path fd) (mk_world (files w ++ [fd]) ev).
Proof.
  unfold registered. cbn [files]. rewrite map_app. apply in_or_app.
  right. left. reflexivity.
Qed.

(** ** [add_file] on registered, unreadable and unclassified files *)

(** C4: on a path that is already registered [add_file] returns at once
    (the spec's [AlreadyExists]): no clip is opened, nothing is saved, the
    world is as it was.  Hence a second [add_file] on the same path leaves
    the project data exactly as the first call left it; where the first
    call imported the file, the second is the early return. *)
Theorem add_file_idempotent (E : env) (p : string) (w : world) :
  (registered p w ->
   add_file E p w = (Ret PyNone, w) /\
   ImportResult_of PyNone = AlreadyExists) /\
  (reports_path E ->
   files (snd (add_file E p (snd (add_file E p w)))) =
   files (snd (add_file E p w)) /\
   (fst (add_file E p w) = Ret PyTrue ->
    add_file E p (snd (add_file E p w)) =
    (Ret PyNone, snd (add_file E p w)))).
Proof.
  split.
  - intros H. split; [apply add_file_found; assumption | reflexivity].
  - intros Hecho.
    destruct (add_file_cases E p w)
      as [[Hr Heq] | [[Hn (e & HC & Heq)] | [[Hn (c & e & HC & HR & Heq)]
         | [Hn (c & fd & HC & HR & Heq)]]]];
      rewrite Heq; cbn [fst snd].
    + rewrite Heq. split; [reflexivity | discriminate].
    + rewrite (add_file_clip_raises E p _ e); [|assumption..].
      split; [reflexivity | discriminate].
    + rewrite (add_file_reader_raises E p _ c e); [|assumption..].
      split; [reflexivity | discriminate].
    + assert (Hreg : registered p
                (mk_world (files w ++ [set_media_type fd])
                          (events w ++ [EvClip p]))).
      { rewrite <- (Hecho p c fd HC HR) at 1.
        rewrite <- path_set_media_type. apply registered_after_save. }
      rewrite (add_file_found E p _ Hreg). split; reflexivity.
Qed.

Lemma add_file_idempotent_witness :
  let w1 := snd (add_file studio "/m/clip.mp4" empty_project) in
  registered "/m/clip.mp4" w1 /\
  add_file studio "/m/clip.mp4" w1 = (Ret PyNone, w1) /\
  files (snd (add_file studio "/m/clip.mp4" w1)) = files w1.
Proof.
  intros w1.
  assert (H : registered "/m/clip.mp4" w1) by (left; reflexivity).
  split; [exact H|]. split.
  - exact (proj1 (proj1 (add_file_idempotent studio "/m/clip.mp4" w1) H)).
  - exact (proj1 (proj2 (add_file_idempotent studio "/m/clip.mp4"
                           empty_project) studio_reports_path)).
Defined.

(** C5: when the reader cannot open or decode the file (an exception inside
    the [try] block), the project data is unchanged, and [add_file] on a
    path not yet registered returns [False] (the spec's
    [Rejected(unreadable)]) with no record for that path. *)
Theorem add_file_unreadable
  (E : env) (p : string) (w : world) (c : Clip_obj) (e : exn) :
  Clip E p = Ret c -> Reader_Json c = Raise e ->
  files (snd (add_file E p w)) = files w /\
  (~ registered p w ->
   fst (add_file E p w) = Ret PyFalse /\
   ImportResult_of PyFalse = Rejected unreadable /\
   ~ registered p (snd (add_file E p w))).
Proof.
  intros HC HR.
  destruct (File_get p w) eqn:Hget.
  - assert (H : registered p w) by (apply File_get_registered; congruence).
    rewrite (add_file_found E p w H). split; [reflexivity | tauto].
  - apply File_get_unregistered in Hget.
    rewrite (add_file_reader_raises E p w c e Hget HC HR).
    split; [reflexivity|]. intros _. repeat split. exact Hget.
Qed.

Lemma add_file_unreadable_witness :
  Clip studio "/m/broken.avi" = Ret (mk_clip (studio_reader "/m/broken.avi")) /\
  Reader_Json (mk_clip (studio_reader "/m/broken.avi")) =
    Raise (LibraryError "ReaderClosed") /\
  ~ registered "/m/broken.avi" empty_project /\
  files (snd (add_file studio "/m/broken.avi" empty_project)) = [] /\
  fst (add_file studio "/m/broken.avi" empty_project) = Ret PyFalse.
Proof.
  pose proof (add_file_unreadable studio "/m/broken.avi" empty_project
                (mk_clip (studio_reader "/m/broken.avi"))
                (LibraryError "ReaderClosed") eq_refl eq_refl) as [Hf Hr].
  assert (Hn : ~ registered "/m/broken.avi" empty_project) by (intros []).
  split; [reflexivity|]. split; [reflexivity|]. split; [exact Hn|].
  split; [exact Hf | exact (proj1 (Hr Hn))].
Defined.

(** C2 (as the spec words it, refuted): a file that the reader opens and
    that has neither video nor audio is not rejected; [add_file] saves its
    record and returns [True]. *)
Lemma unclassifiable_is_not_rejected :
  fst (add_file studio "/m/blank.dat" empty_project) = Ret PyTrue /\
  registered "/m/blank.dat" (snd (add_file studio "/m/blank.dat" empty_project)) /\
  ~ (forall E p w c fd,
       ~ registered p w ->
       Clip E p = Ret c -> Reader_Json c = Ret fd ->
       has_video fd = false -> has_audio fd = false ->
       fst (add_file E p w) = Ret PyFalse /\
       ~ registered p (snd (add_file E p w))).
Proof.
  split; [reflexivity|]. split; [left; reflexivity|].
  intros H.
  destruct (H studio "/m/blank.dat" empty_project
              (mk_clip (studio_reader "/m/blank.dat"))
              (mk_file_data "/m/blank.dat" false false None)) as [Hv _];
    try reflexivity.
  - intros [].
  - discriminate Hv.
Qed.

(** C2 (amended): a file that the reader opens and that has neither video
    nor audio takes no branch of the chain; [add_file] saves the reader's
    record as it is, without a media type of its own, and returns [True]. *)
Theorem add_file_saves_unclassified
  (E : env) (p : string) (w : world) (c : Clip_obj) (fd : file_data) :
  ~ registered p w ->
  Clip E p = Ret c -> Reader_Json c = Ret fd ->
  has_video fd = false -> has_audio fd = false ->
  classify (has_video fd) (has_audio fd) (is_image fd) = None /\
  add_file E p w =
  (Ret PyTrue, mk_world (files w ++ [fd]) (events w ++ [EvClip p])) /\
  ImportResult_of PyTrue = Imported.
Proof.
  intros Hn HC HR Hv Ha.
  assert (Hc : classify (has_video fd) (has_audio fd) (is_image fd) = None)
    by (rewrite Hv, Ha; destruct (is_image fd); reflexivity).
  split; [exact Hc|]. split; [|reflexivity].
  rewrite (add_file_saves E p w c fd Hn HC HR).
  unfold set_media_type. rewrite Hc. reflexivity.
Qed.

Lemma add_file_saves_unclassified_witness :
  ~ registered "/m/blank.dat" empty_project /\
  add_file studio "/m/blank.dat" empty_project =
  (Ret PyTrue,
   mk_world [mk_file_data "/m/blank.dat" false false None]
            [EvClip "/m/blank.dat"]).
Proof.
  assert (Hn : ~ registered "/m/blank.dat" empty_project) by (intros []).
  split; [exact Hn|].
  exact (proj1 (proj2 (add_file_saves_unclassified studio "/m/blank.dat"
           empty_project (mk_clip (studio_reader "/m/blank.dat"))
           (mk_file_data "/m/blank.dat" false false None)
           Hn eq_refl eq_refl eq_refl eq_refl))).
Defined.

(** ** Path normalization in [dropEvent] *)

Lemma strip_leading_separator_cons (c : ascii) (t : string) :
  strip_leading_separator (String c t) =
  if (c =? "/")%char then t else String c t.
Proof.
  destruct c as [[] [] [] [] [] [] [] []]; reflexivity.
Qed.

Lemma strip_drive_slash_cons (c : ascii) (t : string) :
  strip_drive_slash (String c t) = Ret (normalize_spec (String c t)).
Proof.
  unfold strip_drive_slash, normalize_spec. cbn [first_char from_1].
  rewrite strip_leading_separator_cons.
  destruct (c =? "/")%char, (contains ":" (String c t)); reflexivity.
Qed.

Lemma drop_one_not_file (E : env) (u : url) (w : world) :
  scheme u <> "file" -> drop_one E u w = (Ret NotFileScheme, w).
Proof.
  intros H. apply String.eqb_neq in H. unfold drop_one. rewrite H.
  reflexivity.
Qed.

Lemma drop_one_empty_path (E : env) (u : url) (w : world) :
  scheme u = "file" -> urlpath u = "" ->
  drop_one E u w = (Raise IndexError, w).
Proof.
  intros Hs Hp. unfold drop_one. rewrite Hs, Hp. reflexivity.
Qed.

Lemma drop_one_file (E : env) (u : url) (w : world) :
  scheme u = "file" -> urlpath u <> "" ->
  drop_one E u w =
  let q := normalize_spec (urlpath u) in
  if is_regular_file E q then
    match add_file E q (after_event w (EvLogInfo q)) with
    | (Ret r, w') =>
        (Ret (Added r), if truthy r then after_event w' EvAccept else w')
    | (Raise e, w') => (Raise e, w')
    end
  else (Ret NotFound, w).
Proof.
  intros Hs Hp. unfold drop_one, is_regular_file.
  rewrite Hs, String.eqb_refl.
  destruct (urlpath u) as [|c t]; [congruence|].
  unfold bind at 1. unfold lift at 1. rewrite strip_drive_slash_cons.
  cbv zeta.
  destruct (path_exists E _ && path_isfile E _); [|reflexivity].
  run_method.
  destruct (add_file E _ _) as [[r|e] w']; [|reflexivity].
  destruct r; reflexivity.
Qed.

(** C10: the handler indexes the first character of the URI's path before
    anything else is done with it, so resolving the path yields a result
    exactly for the non-empty paths; on a file URI with an empty path the
    index is out of range, and the [IndexError] leaves the iteration and the
    handler, whatever the library and the file system. *)
Theorem strip_drive_slash_needs_path :
  (forall p, (exists q, strip_drive_slash p = Ret q) <-> p <> "") /\
  first_char "" = Raise IndexError /\
  strip_drive_slash "" = Raise IndexError /\
  (forall E w, drop_one E (file_url "") w = (Raise IndexError, w)) /\
  (forall E rest w,
     dropEvent E (file_url "" :: rest) w = (Raise IndexError, w)).
Proof.
  split.
  { intros [|c t].
    - split; [intros [q H]; discriminate H | congruence].
    - split; [discriminate | intros _].
      exists (normalize_spec (String c t)). apply strip_drive_slash_cons. }
  repeat split.
Qed.

(** ** Exceptions and the batch *)

Lemma add_file_returns (E : env) (p : string) (w : world) :
  (exists c, Clip E p = Ret c) ->
  exists v w', add_file E p w = (Ret v, w').
Proof.
  intros [c HC].
  destruct (add_file_cases E p w)
    as [[_ Heq] | [[_ (e & HC' & _)] | [[_ (c' & e & _ & _ & Heq)]
       | [_ (c' & fd & _ & _ & Heq)]]]];
    try (rewrite Heq; eauto).
  congruence.
Qed.

Lemma drop_one_returns (E : env) (u : url) (w : world) :
  clip_constructs E -> has_path u ->
  exists i w', drop_one E u w = (Ret i, w').
Proof.
  intros HE Hu. destruct (string_dec (scheme u) "file") as [Hs|Hs].
  - rewrite (drop_one_file E u w Hs (Hu Hs)). cbv zeta.
    destruct (is_regular_file E _); [|eauto].
    edestruct (add_file_returns E) as (v & w' & ->); [apply HE | eauto].
  - rewrite (drop_one_not_file E u w Hs). eauto.
Qed.

Lemma dropEvent_cons (E : env) (u : url) (rest : list url) (w : world) :
  dropEvent E (u :: rest) w =
  match drop_one E u w with
  | (Ret i, w1) =>
      match dropEvent E rest w1 with
      | (Ret more, w2) => (Ret (i :: more), w2)
      | (Raise e, w2) => (Raise e, w2)
      end
  | (Raise e, w1) => (Raise e, w1)
  end.
Proof.
  cbn [dropEvent]. unfold bind, ret.
  destruct (drop_one E u w) as [[i|e] w1]; [|reflexivity].
  destruct (dropEvent E rest w1) as [[more|e] w2]; reflexivity.
Qed.

Lemma dropEvent_app (E : env) (before after : list url) (w : world) :
  dropEvent E (before ++ after) w =
  match dropEvent E before w with
  | (Ret items1, w1) =>
      match dropEvent E after w1 with
      | (Ret items2, w2) => (Ret (items1 ++ items2), w2)
      | (Raise e, w2) => (Raise e, w2)
      end
  | (Raise e, w1) => (Raise e, w1)
  end.
Proof.
  revert w. induction before as [|u before IH]; intros w.
  - cbn [app dropEvent]. unfold ret.
    destruct (dropEvent E after w) as [[items2|e] w2]; reflexivity.
  - cbn [app]. rewrite !dropEvent_cons.
    destruct (drop_one E u w) as [[i|e] w1]; [|reflexivity].
    rewrite IH.
    destruct (dropEvent E before w1) as [[items1|e] w2]; [|reflexivity].
    destruct (dropEvent E after w2) as [[items2|e] w3]; reflexivity.
Qed.

Lemma dropEvent_returns (E : env) (urls : list url) (w : world) :
  clip_constructs E -> Forall has_path urls ->
  exists items w',
    dropEvent E urls w = (Ret items, w') /\ length items = length urls.
Proof.
  intros HE Hall. revert w.
  induction Hall as [|u rest Hu _ IH]; intros w.
  - exists [], w. split; reflexivity.
  - rewrite dropEvent_cons.
    destruct (drop_one_returns E u w HE Hu) as (i & w1 & ->).
    destruct (IH w1) as (more & w2 & -> & Hlen).
    exists (i :: more), w2. split; [reflexivity | simpl; congruence].
Qed.

(** C3 (as the spec words it, refuted): an exception can leave both
    methods.  [openshot.Clip(filepath)] stands before the [try], so what it
    raises leaves [add_file]; [dropEvent] has no handler of its own, and
    its own index into an empty path raises as well. *)
Lemma exceptions_can_escape :
  fst (add_file brittle_studio "/m/clip.mp4" empty_project) =
    Raise (LibraryError "InvalidFile") /\
  fst (dropEvent brittle_studio [file_url "/m/clip.mp4"] empty_project) =
    Raise (LibraryError "InvalidFile") /\
  fst (dropEvent studio [file_url ""] empty_project) = Raise IndexError /\
  ~ (forall E p w, exists v w', add_file E p w = (Ret v, w')) /\
  ~ (forall E urls w, exists items w', dropEvent E urls w = (Ret items, w')).
Proof.
  repeat split.
  - intros H.
    destruct (H brittle_studio "/m/clip.mp4" empty_project) as (v & w' & Heq).
    discriminate Heq.
  - intros H.
    destruct (H studio [file_url ""] empty_project) as (items & w' & Heq).
    discriminate Heq.
Qed.

(** C3 (amended): when the clip constructs, no behaviour of the reader,
    [clip.Reader()], [reader.Json()] or the parsing of its JSON raising
    included, makes [add_file] raise: it returns [None] exactly on a
    registered path, [False] exactly when the path is new and the reader
    raised (the exception is caught, nothing is saved), and [True] exactly
    when the path is new and the reader gave its dictionary.  [dropEvent]
    then returns on every list of URIs whose file URIs have a non-empty
    path, with one outcome per URI. *)
Theorem no_exception_escapes (E : env) :
  clip_constructs E ->
  (forall p w,
     exists v w',
       add_file E p w = (Ret v, w') /\
       (v = PyNone <-> registered p w) /\
       (v = PyFalse <->
        ~ registered p w /\
        exists c e, Clip E p = Ret c /\ Reader_Json c = Raise e) /\
       (v = PyTrue <->
        ~ registered p w /\
        exists c fd, Clip E p = Ret c /\ Reader_Json c = Ret fd) /\
       (v = PyFalse -> files w' = files w)) /\
  (forall urls w,
     Forall has_path urls ->
     exists items w',
       dropEvent E urls w = (Ret items, w') /\
       length items = length urls).
Proof.
  intros HE. split; [|intros urls w Hall; apply dropEvent_returns; assumption].
  intros p w.
  destruct (add_file_cases E p w)
    as [[Hr Heq] | [[Hn (e & HC & Heq)] | [[Hn (c & e & HC & HR & Heq)]
       | [Hn (c & fd & HC & HR & Heq)]]]];
    rewrite Heq.
  - exists PyNone, w. split; [reflexivity|].
    split; [tauto|]. split; [|split; [|discriminate]];
      (split; [discriminate | intros [Hn _]; contradiction]).
  - destruct (HE p) as [c HC']. congruence.
  - eexists PyFalse, _. split; [reflexivity|].
    split; [split; [discriminate | contradiction]|].
    split; [|split; [|reflexivity]].
    + split; [intros _|reflexivity]. split; [exact Hn|]. exists c, e. auto.
    + split; [discriminate|]. intros [_ (c' & fd & HC' & HR')].
      congruence.
  - eexists PyTrue, _. split; [reflexivity|].
    split; [split; [discriminate | contradiction]|].
    split; [|split; [|discriminate]].
    + split; [discriminate|]. intros [_ (c' & e & HC' & HR')].
      congruence.
    + split; [intros _|reflexivity]. split; [exact Hn|]. exists c, fd. auto.
Qed.

Lemma no_exception_escapes_witness :
  clip_constructs studio /\
  Forall has_path [file_url "/m/broken.avi"; mk_url "http" ""] /\
  (exists v w',
     add_file studio "/m/broken.avi" empty_project = (Ret v, w') /\
     v = PyFalse /\ files w' = []) /\
  (exists items w',
     dropEvent studio [file_url "/m/broken.avi"; mk_url "http" ""]
       empty_project = (Ret items, w') /\
     length items = 2).
Proof.
  assert (Hall : Forall has_path [file_url "/m/broken.avi"; mk_url "http" ""]).
  { repeat constructor; intros H; discriminate. }
  pose proof (no_exception_escapes studio studio_clip_constructs) as [Ha Hd].
  split; [exact studio_clip_constructs|]. split; [exact Hall|].
  split; [|exact (Hd _ empty_project Hall)].
  destruct (Ha "/m/broken.avi" empty_project)
    as (v & w' & Heq & _ & Hfalse & _ & Hfiles).
  assert (Hv : v = PyFalse).
  { apply Hfalse. split; [intros []|].
    exists (mk_clip (studio_reader "/m/broken.avi")),
           (LibraryError "ReaderClosed").
    split; reflexivity. }
  exists v, w'. split; [exact Heq|]. split; [exact Hv | exact (Hfiles Hv)].
Defined.

(** C6 (as the spec words it, refuted): a batch can end early.  A file URI
    with an empty path, or a clip whose construction raises, ends the loop:
    the URIs after it are not looked at and their files are not imported. *)
Lemma one_item_can_end_the_batch :
  dropEvent studio [file_url ""; file_url "/m/clip.mp4"] empty_project =
    (Raise IndexError, empty_project) /\
  dropEvent brittle_studio [file_url "/m/a.mp4"; file_url "/m/b.mp4"]
    empty_project =
    (Raise (LibraryError "InvalidFile"),
     mk_world [] [EvLogInfo "/m/a.mp4"; EvClip "/m/a.mp4"]) /\
  ~ (forall E urls w,
       exists items w',
         dropEvent E urls w = (Ret items, w') /\
         length items = length urls).
Proof.
  repeat split.
  intros H.
  destruct (H studio [file_url ""; file_url "/m/clip.mp4"] empty_project)
    as (items & w' & Heq & _).
  discriminate Heq.
Qed.

(** C6 (amended): when clips construct and every file URI has a non-empty
    path, [dropEvent] goes through the URIs in the order given and yields
    one outcome per URI in that order: each URI is handled in the world
    left by those before it, and whatever its own outcome (not a file URI,
    not found, rejected, already there, imported) the URIs after it are
    handled from the world it left, through to the end of the list. *)
Theorem dropEvent_in_order (E : env) (urls : list url) (w : world) :
  clip_constructs E -> Forall has_path urls ->
  exists items w',
    dropEvent E urls w = (Ret items, w') /\
    length items = length urls /\
    forall before u after,
      urls = before ++ u :: after ->
      exists items1 w1 i w2 items2,
        dropEvent E before w = (Ret items1, w1) /\
        length items1 = length before /\
        drop_one E u w1 = (Ret i, w2) /\
        dropEvent E after w2 = (Ret items2, w') /\
        items = items1 ++ i :: items2.
Proof.
  intros HE Hall.
  destruct (dropEvent_returns E urls w HE Hall) as (items & w' & Heq & Hlen).
  exists items, w'. split; [exact Heq|]. split; [exact Hlen|].
  intros before u after ->.
  apply Forall_app in Hall as [Hb Hua].
  apply Forall_cons_iff in Hua as [Hu Ha].
  destruct (dropEvent_returns E before w HE Hb) as (items1 & w1 & Heq1 & Hl1).
  destruct (drop_one_returns E u w1 HE Hu) as (i & w2 & Heq2).
  destruct (dropEvent_returns E after w2 HE Ha) as (items2 & w3 & Heq3 & _).
  rewrite dropEvent_app, Heq1, dropEvent_cons, Heq2, Heq3 in Heq.
  injection Heq as <- <-.
  exists items1, w1, i, w2, items2. repeat split; assumption.
Qed.

Lemma dropEvent_in_order_witness :
  clip_constructs studio /\
  Forall has_path
    [file_url "/m/gone.mp4"; file_url "/m/broken.avi"; file_url "/m/song.mp3"] /\
  exists items w',
    dropEvent studio
      [file_url "/m/gone.mp4"; file_url "/m/broken.avi"; file_url "/m/song.mp3"]
      empty_project = (Ret items, w') /\
    length items = 3.
Proof.
  assert (Hall : Forall has_path
            [file_url "/m/gone.mp4"; file_url "/m/broken.avi";
             file_url "/m/song.mp3"]).
  { repeat constructor; intros _; discriminate. }
  split; [exact studio_clip_constructs|]. split; [exact Hall|].
  destruct (dropEvent_in_order studio _ empty_project
              studio_clip_constructs Hall) as (items & w' & Heq & Hlen & _).
  exists items, w'. split; [exact Heq | exact Hlen].
Defined.

(** ** The resolved path of a dropped URI *)





(** ** Uniqueness of paths in the project data *)

Lemma add_file_unique (E : env) (p : string) (w : world) :
  reports_path E -> unique_paths w -> unique_paths (snd (add_file E p w)).
Proof.
  intros Hecho Hw.
  destruct (add_file_cases E p w)
    as [[_ Heq] | [[_ (e & _ & Heq)] | [[_ (c & e & _ & _ & Heq)]
       | [Hn (c & fd & HC & HR & Heq)]]]];
    rewrite Heq; cbn [snd]; try exact Hw.
  unfold unique_paths in *. cbn [files]. rewrite map_app. cbn [map].
  rewrite path_set_media_type, (Hecho p c fd HC HR).
  apply NoDup_app; [exact Hw | repeat constructor; intros [] |].
  intros a Ha [<- | []]. exact (Hn Ha).
Qed.

Lemma drop_one_unique (E : env) (u : url) (w : world) :
  reports_path E -> unique_paths w -> unique_paths (snd (drop_one E u w)).
Proof.
  intros Hecho Hw. destruct (string_dec (scheme u) "file") as [Hs|Hs].
  - destruct (urlpath u) as [|c t] eqn:Hp.
    + rewrite (drop_one_empty_path E u w Hs Hp). exact Hw.
    + rewrite (drop_one_file E u w Hs) by (rewrite Hp; discriminate).
      cbv zeta. destruct (is_regular_file E _); [|exact Hw].
      pose proof (add_file_unique E (normalize_spec (urlpath u))
                    (after_event w (EvLogInfo (normalize_spec (urlpath u))))
                    Hecho Hw) as H.
      destruct (add_file E _ _) as [[r|e] w']; cbn [snd] in *; [|exact H].
      destruct (truthy r); exact H.
  - rewrite (drop_one_not_file E u w Hs). exact Hw.
Qed.

Lemma dropEvent_unique (E : env) (urls : list url) (w : world) :
  reports_path E -> unique_paths w -> unique_paths (snd (dropEvent E urls w)).
Proof.
  intros Hecho. revert w. induction urls as [|u rest IH]; intros w Hw.
  - exact Hw.
  - rewrite dropEvent_cons.
    pose proof (drop_one_unique E u w Hecho Hw) as H1.
    destruct (drop_one E u w) as [[i|e] w1]; cbn [snd] in *; [|exact H1].
    pose proof (IH w1 H1) as H2.
    destruct (dropEvent E rest w1) as [[more|e] w2]; exact H2.
Qed.

(** C8: from project data in which no two records share a path, every
    sequence of [add_file] calls and drops leaves project data in which no
    two records share a path (the reader naming the file it opened). *)
Theorem unique_paths_preserved (E : env) (ops : list op) (w : world) :
  reports_path E -> unique_paths w -> unique_paths (run_ops E ops w).
Proof.
  intros Hecho. revert w. induction ops as [|o rest IH]; intros w Hw.
  - exact Hw.
  - cbn [run_ops]. apply IH. destruct o as [p|urls]; cbn [run_op].
    + apply add_file_unique; assumption.
    + apply dropEvent_unique; assumption.
Qed.

Lemma unique_paths_preserved_witness :
  reports_path studio /\
  unique_paths empty_project /\
  unique_paths
    (run_ops studio
       [importBatch [file_url "/m/clip.mp4"; file_url "/m/clip.mp4"];
        importFile "/m/song.mp3"; importFile "/m/clip.mp4"]
       empty_project).
Proof.
  assert (H0 : unique_paths empty_project) by constructor.
  split; [exact studio_reports_path|]. split; [exact H0|].
  exact (unique_paths_preserved studio _ empty_project studio_reports_path H0).
Defined.

(** ** What an import adds, and what it leaves alone *)

Lemma accepts_after_event (w : world) (e : event) :
  accepts (after_event w e) = accepts w + (if is_accept e then 1 else 0).
Proof.
  unfold accepts, after_event. cbn [events]. rewrite filter_app, length_app.
  cbn [filter]. destruct (is_accept e); reflexivity.
Qed.

(** The record a call saved, if it saved one. *)
Lemma add_file_effect (E : env) (p : string) (w : world) :
  accepts (snd (add_file E p w)) = accepts w /\
  ((fst (add_file E p w) = Ret PyTrue /\
    exists c fd,
      Clip E p = Ret c /\ Reader_Json c = Ret fd /\ ~ registered p w /\
      files (snd (add_file E p w)) = files w ++ [set_media_type fd]) \/
   (fst (add_file E p w) <> Ret PyTrue /\
    files (snd (add_file E p w)) = files w)).
Proof.
  destruct (add_file_cases E p w)
    as [[_ Heq] | [[_ (e & _ & Heq)] | [[_ (c & e & _ & _ & Heq)]
       | [Hn (c & fd & HC & HR & Heq)]]]];
    rewrite Heq; cbn [fst snd]; rewrite ?accepts_after_event; cbn [is_accept].
  - split; [reflexivity | right; split; [discriminate | reflexivity]].
  - split; [lia | right; split; [discriminate | reflexivity]].
  - split; [lia | right; split; [discriminate | reflexivity]].
  - split.
    + unfold accepts. cbn [events]. rewrite filter_app, length_app.
      cbn. lia.
    + left. split; [reflexivity|].
      exists c, fd. repeat split; assumption.
Qed.

(** One turn of the drop loop, by what it did to the file records. *)
Lemma drop_one_effect (E : env) (u : url) (w : world) :
  (files (snd (drop_one E u w)) = files w /\
   accepts (snd (drop_one E u w)) = accepts w /\
   fst (drop_one E u w) <> Ret (Added PyTrue)) \/
  (fst (drop_one E u w) = Ret (Added PyTrue) /\
   accepts (snd (drop_one E u w)) = S (accepts w) /\
   scheme u = "file" /\ urlpath u <> "" /\
   is_regular_file E (normalize_spec (urlpath u)) = true /\
   exists c fd,
     Clip E (normalize_spec (urlpath u)) = Ret c /\
     Reader_Json c = Ret fd /\
     ~ registered (normalize_spec (urlpath u)) w /\
     files (snd (drop_one E u w)) = files w ++ [set_media_type fd]).
Proof.
  destruct (string_dec (scheme u) "file") as [Hs|Hs];
    [|rewrite (drop_one_not_file E u w Hs); left; repeat split; discriminate].
  destruct (string_dec (urlpath u) "") as [Hp|Hp];
    [rewrite (drop_one_empty_path E u w Hs Hp); left;
     repeat split; discriminate|].
  rewrite (drop_one_file E u w Hs Hp). cbv zeta.
  destruct (is_regular_file E _) eqn:Hreg;
    [|left; repeat split; discriminate].
  set (q := normalize_spec (urlpath u)) in *.
  destruct (add_file_effect E q (after_event w (EvLogInfo q)))
    as [Hacc [[Hr (c & fd & HC & HR & Hn & Hf)] | [Hr Hf]]];
    rewrite accepts_after_event in Hacc; cbn [is_accept] in Hacc;
    destruct (add_file E q (after_event w (EvLogInfo q))) as [[r|e] w'];
    cbn [fst snd] in *; try discriminate.
  - injection Hr as ->. cbn [truthy fst snd]. right.
    rewrite accepts_after_event. cbn [is_accept].
    split; [reflexivity|]. split; [lia|].
    repeat split; try assumption. exists c, fd. repeat split; assumption.
  - left. destruct r; cbn [truthy fst snd]; try congruence;
      (split; [exact Hf|]; split; [lia | discriminate]).
  - left. split; [exact Hf|]. split; [lia | discriminate].
Qed.

Lemma add_file_extends (E : env) (p : string) (w : world) :
  exists added, files (snd (add_file E p w)) = files w ++ added.
Proof.
  destruct (add_file_effect E p w) as [_ [[_ (c & fd & _ & _ & _ & Hf)] | [_ Hf]]].
  - eexists. exact Hf.
  - exists []. rewrite app_nil_r. exact Hf.
Qed.

Lemma drop_one_extends (E : env) (u : url) (w : world) :
  exists added, files (snd (drop_one E u w)) = files w ++ added.
Proof.
  destruct (drop_one_effect E u w)
    as [[Hf _] | (_ & _ & _ & _ & _ & c & fd & _ & _ & _ & Hf)].
  - exists []. rewrite app_nil_r. exact Hf.
  - eexists. exact Hf.
Qed.

Lemma dropEvent_extends (E : env) (urls : list url) (w : world) :
  exists added, files (snd (dropEvent E urls w)) = files w ++ added.
Proof.
  revert w. induction urls as [|u rest IH]; intros w.
  - exists []. cbn. rewrite app_nil_r. reflexivity.
  - rewrite dropEvent_cons.
    destruct (drop_one_extends E u w) as [a1 H1].
    destruct (drop_one E u w) as [[i|e] w1]; cbn [snd] in *;
      [|exists a1; exact H1].
    destruct (IH w1) as [a2 H2].
    destruct (dropEvent E rest w1) as [[more|e] w2]; cbn [snd] in *;
      exists (a1 ++ a2); rewrite H2, H1, app_assoc; reflexivity.
Qed.

(** X1: no operation of the pipeline removes, reorders or rewrites a
    record: the records of the project after any sequence of [add_file]
    calls and drops are the records it had, followed by the new ones. *)
Theorem imports_only_append (E : env) (ops : list op) (w : world) :
  exists added, files (run_ops E ops w) = files w ++ added.
Proof.
  revert w. induction ops as [|o rest IH]; intros w.
  - exists []. cbn. rewrite app_nil_r. reflexivity.
  - cbn [run_ops]. destruct (IH (run_op E o w)) as [a2 H2].
    assert (H1 : exists a1, files (run_op E o w) = files w ++ a1)
      by (destruct o; [apply add_file_extends | apply dropEvent_extends]).
    destruct H1 as [a1 H1]. exists (a1 ++ a2).
    rewrite H2, H1, app_assoc. reflexivity.
Qed.

Lemma dropEvent_counts (E : env) (urls : list url) (w : world) :
  accepts (snd (dropEvent E urls w)) + length (files w) =
  accepts w + length (files (snd (dropEvent E urls w))).
Proof.
  revert w. induction urls as [|u rest IH]; intros w.
  - reflexivity.
  - rewrite dropEvent_cons.
    assert (H1 : accepts (snd (drop_one E u w)) + length (files w) =
                 accepts w + length (files (snd (drop_one E u w)))).
    { destruct (drop_one_effect E u w)
        as [(Hf & Ha & _) | (_ & Ha & _ & _ & _ & c & fd & _ & _ & _ & Hf)];
        rewrite Hf, Ha; [reflexivity|].
      rewrite length_app. cbn [length]. lia. }
    destruct (drop_one E u w) as [[i|e] w1]; cbn [snd] in *; [|exact H1].
    specialize (IH w1).
    destruct (dropEvent E rest w1) as [[more|e] w2]; cbn [snd] in *; lia.
Qed.

(** X2: a drop calls [event.accept()] once for every record it adds and
    never otherwise, also when it ends in an exception; so a drop that
    imports nothing is not accepted. *)
Theorem drop_accepts_once_per_import (E : env) (urls : list url) (w : world) :
  accepts (snd (dropEvent E urls w)) - accepts w =
  length (files (snd (dropEvent E urls w))) - length (files w) /\
  accepts w <= accepts (snd (dropEvent E urls w)) /\
  (files (snd (dropEvent E urls w)) = files w <->
   accepts (snd (dropEvent E urls w)) = accepts w).
Proof.
  pose proof (dropEvent_counts E urls w) as H.
  destruct (dropEvent_extends E urls w) as [added Hadd].
  rewrite Hadd in *. rewrite length_app in *.
  split; [lia|]. split; [lia|]. split.
  - intros Heq. apply (f_equal (@length _)) in Heq.
    rewrite length_app in Heq. lia.
  - intros Heq. destruct added; [rewrite app_nil_r; reflexivity|].
    cbn [length] in H. lia.
Qed.







(** X4: a drop that carries no file URI (links, other schemes) does
    nothing at all: no path is tested, no clip is opened, no record is
    saved, the event is not accepted. *)
Theorem drop_without_file_urls (E : env) (urls : list url) (w : world) :
  Forall (fun u => scheme u <> "file") urls ->
  dropEvent E urls w = (Ret (map (fun _ => NotFileScheme) urls), w).
Proof.
  intros Hall. induction Hall as [|u rest Hu _ IH].
  - reflexivity.
  - rewrite dropEvent_cons, (drop_one_not_file E u w Hu), IH. reflexivity.
Qed.

Lemma drop_without_file_urls_witness :
  Forall (fun u => scheme u <> "file")
    [mk_url "http" "/m/clip.mp4"; mk_url "" ""] /\
  dropEvent brittle_studio [mk_url "http" "/m/clip.mp4"; mk_url "" ""]
    empty_project =
  (Ret [NotFileScheme; NotFileScheme], empty_project).
Proof.
  assert (Hall : Forall (fun u => scheme u <> "file")
                   [mk_url "http" "/m/clip.mp4"; mk_url "" ""])
    by (repeat constructor; discriminate).
  split; [exact Hall|].
  exact (drop_without_file_urls brittle_studio _ empty_project Hall).
Defined.

Lemma find_snoc {A} (f : A -> bool) (l : list A) (x : A) :
  find f l = None -> f x = true -> find f (l ++ [x]) = Some x.
Proof.
  intros Hl Hx. induction l as [|y l IH]; cbn in *.
  - rewrite Hx. reflexivity.
  - destruct (f y); [discriminate | apply IH, Hl].
Qed.

(** X5: a record that [add_file] saved is the one the project's lookup
    finds under the path given: after a call that returned [True],
    [File.get(path=filepath)] yields the reader's record with the media
    type set (the reader naming the file it opened). *)
Theorem lookup_after_add_file
  (E : env) (p : string) (w : world) (c : Clip_obj) (fd : file_data) :
  reports_path E -> ~ registered p w ->
  Clip E p = Ret c -> Reader_Json c = Ret fd ->
  fst (add_file E p w) = Ret PyTrue /\
  File_get p (snd (add_file E p w)) = Some (set_media_type fd) /\
  media_type (set_media_type fd) =
    match classify (has_video fd) (has_audio fd) (is_image fd) with
    | Some t => Some t
    | None => media_type fd
    end.
Proof.
  intros Hecho Hn HC HR.
  rewrite (add_file_saves E p w c fd Hn HC HR). cbn [fst snd].
  split; [reflexivity|]. split.
  - unfold File_get. cbn [files]. apply find_snoc.
    + apply File_get_unregistered, Hn.
    + rewrite path_set_media_type, (Hecho p c fd HC HR).
      apply String.eqb_refl.
  - unfold set_media_type. destruct (classify _ _ _); reflexivity.
Qed.

Lemma lookup_after_add_file_witness :
  reports_path studio /\
  ~ registered "/m/song.mp3" empty_project /\
  File_get "/m/song.mp3" (snd (add_file studio "/m/song.mp3" empty_project)) =
  Some (mk_file_data "/m/song.mp3" false true (Some audio)).
Proof.
  assert (Hn : ~ registered "/m/song.mp3" empty_project) by (intros []).
  split; [exact studio_reports_path|]. split; [exact Hn|].
  exact (proj1 (proj2 (lookup_after_add_file studio "/m/song.mp3"
           empty_project (mk_clip (studio_reader "/m/song.mp3"))
           (mk_file_data "/m/song.mp3" false true None)
           studio_reports_path Hn eq_refl eq_refl))).
Defined.

Lemma basename_no_separator (s : string) : contains "/" (basename s) = false.
Proof.
  induction s as [|c t IH]; [reflexivity|]. cbn [basename].
  destruct (contains "/" t) eqn:Ht; [exact IH|].
  destruct (c =? "/")%char eqn:Hc; [exact Ht|].
  cbn [contains]. rewrite Hc, Ht. reflexivity.
Qed.

(** X6: [add_file] opens at most one clip per call, and it shows the
    message box exactly when it returns [False]: once, after the clip was
    opened, naming the file without its directory. *)
Theorem message_box_iff_false (E : env) (p : string) (w : world) :
  (fst (add_file E p w) = Ret PyFalse ->
   events (snd (add_file E p w)) =
   events w ++ [EvClip p; EvMsgBox (basename p)]) /\
  (fst (add_file E p w) <> Ret PyFalse ->
   events (snd (add_file E p w)) = events w \/
   events (snd (add_file E p w)) = events w ++ [EvClip p]) /\
  contains "/" (basename p) = false.
Proof.
  split; [|split; [|apply basename_no_separator]];
    destruct (add_file_cases E p w)
      as [[_ Heq] | [[_ (e & _ & Heq)] | [[_ (c & e & _ & _ & Heq)]
         | [_ (c & fd & _ & _ & Heq)]]]];
    rewrite Heq; cbn [fst snd after_event events]; intros H;
    try discriminate H; try (exfalso; apply H; reflexivity);
    rewrite <- ?app_assoc; auto.
Qed.

(** ** Dropping the same files again *)

Lemma registered_same_files (p : string) (w w2 : world) :
  files w2 = files w -> registered p w2 <-> registered p w.
Proof.
  unfold registered. intros ->. reflexivity.
Qed.

Lemma registered_extends (p : string) (w w' : world) :
  (exists added, files w' = files w ++ added) ->
  registered p w -> registered p w'.
Proof.
  unfold registered. intros [added ->] H. rewrite map_app.
  apply in_or_app. left. exact H.
Qed.

(** The result of [add_file] and the records it leaves are a matter of the
    records it finds, not of the calls made before. *)
Lemma add_file_files_only (E : env) (p : string) (w w2 : world) :
  files w2 = files w ->
  fst (add_file E p w2) = fst (add_file E p w) /\
  files (snd (add_file E p w2)) = files (snd (add_file E p w)).
Proof.
  intros Hf. pose proof (registered_same_files p w w2 Hf) as Hreg.
  destruct (add_file_cases E p w)
    as [[Hr Heq] | [[Hn (e & HC & Heq)] | [[Hn (c & e & HC & HR & Heq)]
       | [Hn (c & fd & HC & HR & Heq)]]]];
    rewrite Heq.
  - rewrite (add_file_found E p w2) by (apply Hreg; exact Hr).
    split; [reflexivity | exact Hf].
  - rewrite (add_file_clip_raises E p w2 e) by (rewrite ?Hreg; assumption).
    split; [reflexivity | exact Hf].
  - rewrite (add_file_reader_raises E p w2 c e)
      by (rewrite ?Hreg; assumption).
    split; [reflexivity | exact Hf].
  - rewrite (add_file_saves E p w2 c fd) by (rewrite ?Hreg; assumption).
    cbn [fst snd files]. rewrite Hf. split; reflexivity.
Qed.

Lemma drop_one_files_only (E : env) (u : url) (w w2 : world) :
  files w2 = files w ->
  fst (drop_one E u w2) = fst (drop_one E u w) /\
  files (snd (drop_one E u w2)) = files (snd (drop_one E u w)).
Proof.
  intros Hf.
  destruct (string_dec (scheme u) "file") as [Hs|Hs];
    [|rewrite !(drop_one_not_file E u _ Hs); split; [reflexivity | exact Hf]].
  destruct (string_dec (urlpath u) "") as [Hp|Hp];
    [rewrite !(drop_one_empty_path E u _ Hs Hp);
     split; [reflexivity | exact Hf]|].
  rewrite !(drop_one_file E u _ Hs Hp). cbv zeta.
  destruct (is_regular_file E _); [|split; [reflexivity | exact Hf]].
  set (q := normalize_spec (urlpath u)).
  destruct (add_file_files_only E q (after_event w (EvLogInfo q))
              (after_event w2 (EvLogInfo q)) Hf) as [H1 H2].
  destruct (add_file E q (after_event w2 (EvLogInfo q))) as [[r2|e2] w2'],
           (add_file E q (after_event w (EvLogInfo q))) as [[r|e] w'];
    cbn [fst snd] in *; try discriminate.
  - injection H1 as ->. destruct (truthy r); split; auto.
  - injection H1 as ->. split; auto.
Qed.

(** Once a URI has been through the loop, a later turn on it adds nothing,
    in any world that has the records the first turn left. *)
Lemma drop_one_settled (E : env) (u : url) (w w2 : world) :
  reports_path E ->
  (forall p, registered p (snd (drop_one E u w)) -> registered p w2) ->
  files (snd (drop_one E u w2)) = files w2.
Proof.
  intros Hecho Hsub.
  destruct (drop_one_effect E u w2)
    as [[Hf _] | (_ & _ & Hs & Hp & Hreg & c & fd & HC & HR & Hn2 & _)];
    [exact Hf|].
  exfalso. apply Hn2, Hsub. set (q := normalize_spec (urlpath u)) in *.
  destruct (drop_one_effect E u w)
    as [(Hf & _ & Hne) | (_ & _ & _ & _ & _ & c' & fd' & HC' & HR' & _ & Hf)].
  - destruct (File_get q w) eqn:Hget.
    + unfold registered. rewrite Hf.
      apply File_get_registered. congruence.
    + exfalso. apply Hne. apply File_get_unregistered in Hget.
      rewrite (drop_one_file E u w Hs Hp). cbv zeta. fold q. rewrite Hreg.
      rewrite (add_file_saves E q (after_event w (EvLogInfo q)) c fd
                 Hget HC HR).
      reflexivity.
  - unfold registered. rewrite Hf, map_app. apply in_or_app. right.
    left. rewrite path_set_media_type. exact (Hecho q c' fd' HC' HR').
Qed.

Lemma dropEvent_settled (E : env) (urls : list url) :
  reports_path E ->
  forall w w2,
    files w2 = files (snd (dropEvent E urls w)) ->
    files (snd (dropEvent E urls w2)) = files w2.
Proof.
  intros Hecho. induction urls as [|u rest IH]; intros w w2 Hf.
  - reflexivity.
  - rewrite dropEvent_cons in Hf |- *.
    destruct (drop_one E u w) as [[i|e] wa] eqn:H1.
    + assert (Hrest : files w2 = files (snd (dropEvent E rest wa)))
        by (destruct (dropEvent E rest wa) as [[more|e] wz]; exact Hf).
      assert (H2 : files (snd (drop_one E u w2)) = files w2).
      { apply (drop_one_settled E u w w2 Hecho). intros p Hp.
        rewrite H1 in Hp. cbn [snd] in Hp.
        apply (registered_same_files p _ w2 Hrest).
        apply (registered_extends p wa); [apply dropEvent_extends | exact Hp]. }
      destruct (drop_one E u w2) as [[i2|e2] wb]; cbn [snd] in H2;
        [|exact H2].
      assert (H3 : files (snd (dropEvent E rest wb)) = files wb)
        by (apply (IH wa wb); congruence).
      destruct (dropEvent E rest wb) as [[more|e] wz]; cbn [snd] in *;
        congruence.
    + cbn [snd] in Hf.
      assert (Hw : files wa = files w).
      { destruct (drop_one_effect E u w) as [(H & _) | (H & _)];
          rewrite H1 in H; cbn [fst snd] in H; [exact H | discriminate H]. }
      destruct (drop_one_files_only E u w w2) as [Hr Hfs]; [congruence|].
      rewrite H1 in Hr, Hfs. cbn [fst snd] in Hr, Hfs.
      destruct (drop_one E u w2) as [[i2|e2] wb]; cbn [fst snd] in *;
        [discriminate Hr | congruence].
Qed.

(** X7: dropping the same URIs a second time adds no record and is not
    accepted, whatever the first drop did with each of them (the reader
    naming the file it opened). *)
Theorem drop_again_adds_nothing (E : env) (urls : list url) (w : world) :
  reports_path E ->
  files (snd (dropEvent E urls (snd (dropEvent E urls w)))) =
  files (snd (dropEvent E urls w)) /\
  accepts (snd (dropEvent E urls (snd (dropEvent E urls w)))) =
  accepts (snd (dropEvent E urls w)).
Proof.
  intros Hecho.
  pose proof (dropEvent_settled E urls Hecho w (snd (dropEvent E urls w))
                eq_refl) as Hf.
  split; [exact Hf|].
  pose proof (dropEvent_counts E urls (snd (dropEvent E urls w))) as Hc.
  rewrite Hf in Hc. lia.
Qed.

Lemma drop_again_adds_nothing_witness :
  reports_path studio /\
  files (snd (dropEvent studio
                [file_url "/m/clip.mp4"; file_url "/m/broken.avi";
                 file_url ""; file_url "/m/song.mp3"]
                (snd (dropEvent studio
                        [file_url "/m/clip.mp4"; file_url "/m/broken.avi";
                         file_url ""; file_url "/m/song.mp3"]
                        empty_project)))) =
  [mk_file_data "/m/clip.mp4" true true (Some video)].
Proof.
  split; [exact studio_reports_path|].
  exact (proj1 (drop_again_adds_nothing studio
                  [file_url "/m/clip.mp4"; file_url "/m/broken.avi";
                   file_url ""; file_url "/m/song.mp3"]
                  empty_project studio_reports_path)).
Defined.

(** ** [is_image] and the directory of a path *)

Lemma lower_app (a b : string) :
  lower (a ++ b) = (lower a ++ lower b)%string.
Proof.
  induction a as [|c a IH]; cbn; [|rewrite IH]; reflexivity.
Qed.

Lemma differs_by_separator (s suffix : string) :
  contains "/" s = true -> contains "/" suffix = false ->
  (s =? suffix) = false.
Proof.
  intros Hs Hsuf. apply String.eqb_neq. intros ->. congruence.
Qed.

Lemma contains_app_separator (a b : string) :
  contains "/" (a ++ String "/" b) = true.
Proof.
  induction a as [|c a IH]; cbn [append contains].
  - reflexivity.
  - rewrite IH. apply orb_true_r.
Qed.

Lemma endswith_below_separator (a b suffix : string) :
  contains "/" suffix = false ->
  endswith (a ++ String "/" b) suffix = endswith b suffix.
Proof.
  intros Hsuf. induction a as [|c a IH]; cbn [append].
  - change (endswith (String "/" b) suffix)
      with ((String "/" b =? suffix) || endswith b suffix).
    rewrite (differs_by_separator (String "/" b) suffix); auto.
  - change (endswith (String c (a ++ String "/" b)) suffix)
      with ((String c (a ++ String "/" b) =? suffix)
            || endswith (a ++ String "/" b) suffix).
    rewrite (differs_by_separator _ suffix), IH; auto.
    cbn [contains]. rewrite contains_app_separator. apply orb_true_r.
Qed.

Lemma basename_split (p : string) :
  contains "/" p = true ->
  exists dir, p = (dir ++ String "/" (basename p))%string.
Proof.
  induction p as [|c t IH]; [discriminate|]. cbn [contains basename].
  destruct (contains "/" t) eqn:Ht.
  - intros _. destruct (IH eq_refl) as [dir Hd]. exists (String c dir).
    cbn [append]. rewrite <- Hd. reflexivity.
  - rewrite orb_false_r. intros Hc. rewrite Hc.
    apply Ascii.eqb_eq in Hc. subst c. exists "". reflexivity.
Qed.

Lemma basename_without_separator (p : string) :
  contains "/" p = false -> basename p = p.
Proof.
  destruct p as [|c t]; [reflexivity|]. cbn [contains basename].
  intros H. apply orb_false_iff in H as [Hc Ht]. rewrite Ht, Hc.
  reflexivity.
Qed.

(** X8: whether a file counts as an image is a matter of its file name
    alone: [is_image] gives the same answer on a path as on what follows
    its last separator, so no directory name can turn a file into an image
    or keep it from being one. *)
Theorem is_image_of_file_name :
  (forall dir name hv ha mt,
     is_image (mk_file_data (dir ++ String "/" name) hv ha mt) =
     is_image (mk_file_data name hv ha mt)) /\
  (forall file,
     is_image file =
     is_image (mk_file_data (basename (path file)) (has_video file)
                 (has_audio file) (media_type file))).
Proof.
  assert (H : forall dir name hv ha mt,
             is_image (mk_file_data (dir ++ String "/" name) hv ha mt) =
             is_image (mk_file_data name hv ha mt)).
  { intros dir name hv ha mt. unfold is_image. cbn [path].
    rewrite lower_app. cbn [lower]. change (lower_char "/") with "/"%char.
    unfold endswith_any, image_suffixes. cbn [existsb].
    rewrite !endswith_below_separator; reflexivity. }
  split; [exact H|].
  intros [p hv ha mt]. cbn [path has_video has_audio media_type].
  destruct (contains "/" p) eqn:Hp.
  - destruct (basename_split p Hp) as [dir Hd].
    rewrite Hd at 1. apply H.
  - rewrite (basename_without_separator p Hp). reflexivity.
Qed.

(** ** [updateSelection]: one file per selected row *)

Lemma filter_filter_and {A} (p q : A -> bool) (l : list A) :
  filter q (filter p l) = filter (fun y => p y && q y) l.
Proof.
  induction l as [|x l IH]; [reflexivity|]. cbn [filter].
  destruct (p x); cbn [filter andb]; [destruct (q x)|]; rewrite IH;
    reflexivity.
Qed.

Lemma filter_absorbs {A} (p q : A -> bool) (l : list A) :
  (forall y, p y = true -> q y = true) ->
  filter p (filter q l) = filter p l.
Proof.
  intros H. rewrite filter_filter_and. apply filter_ext. intros y.
  destruct (p y) eqn:Hp; [rewrite (H y Hp); reflexivity|].
  apply andb_false_r.
Qed.

Lemma first_occurrences_filter (p : nat -> bool) (l : list nat) :
  first_occurrences (filter p l) = filter p (first_occurrences l).
Proof.
  induction l as [|x l IH]; [reflexivity|].
  cbn [filter first_occurrences]. destruct (p x) eqn:Hx.
  - cbn [first_occurrences]. rewrite IH. f_equal.
    rewrite !filter_filter_and. apply filter_ext. intros y.
    apply andb_comm.
  - rewrite IH. symmetry. apply filter_absorbs. intros y Hy.
    destruct (Nat.eqb_spec y x) as [->|]; [congruence | reflexivity].
Qed.

Lemma first_occurrences_In (r : nat) (l : list nat) :
  In r (first_occurrences l) <-> In r l.
Proof.
  induction l as [|x l IH]; [reflexivity|].
  cbn [first_occurrences In]. rewrite filter_In, IH.
  destruct (Nat.eqb_spec r x) as [->|Hne]; cbn [negb].
  - split; auto.
  - split; [intros [|[]]; auto | intros [|]; auto].
Qed.

Lemma first_occurrences_NoDup (l : list nat) : NoDup (first_occurrences l).
Proof.
  induction l as [|x l IH]; cbn [first_occurrences]; constructor.
  - rewrite filter_In, Nat.eqb_refl. intros [_ H]. discriminate H.
  - apply NoDup_filter, IH.
Qed.

Lemma first_occurrences_length (l : list nat) :
  length (first_occurrences l) <= length l.
Proof.
  induction l as [|x l IH]; cbn [first_occurrences length]; [lia|].
  pose proof (filter_length_le (fun y => negb (y =? x)%nat)
                (first_occurrences l)). lia.
Qed.

Lemma NoDup_map_injective {A B} (f : A -> B) (l : list A) :
  (forall x y, f x = f y -> x = y) -> NoDup l -> NoDup (map f l).
Proof.
  intros Hinj Hl. induction Hl as [|x l Hx _ IH]; cbn [map]; constructor.
  - rewrite in_map_iff. intros (y & Hy & Hin).
    apply Hinj in Hy. subst y. exact (Hx Hin).
  - exact IH.
Qed.

(** The loop from any two lists it may have reached. *)
Lemma selection_loop_from (t : table) (sel : list QModelIndex) :
  forall rows ids,
    fold_left (select_one t) sel (rows, ids) =
    (rows ++ first_occurrences
               (filter (fun r => negb (in_rows r rows)) (map row sel)),
     ids ++ map (fun r => t r 5)
              (first_occurrences
                 (filter (fun r => negb (in_rows r rows)) (map row sel)))).
Proof.
  induction sel as [|i sel IH]; intros rows ids.
  - cbn. rewrite !app_nil_r. reflexivity.
  - cbn [fold_left map filter]. unfold select_one at 2. cbn [fst snd].
    destruct (in_rows (row i) rows) eqn:Hin; cbn [negb].
    + apply IH.
    + rewrite IH. cbn [first_occurrences map].
      assert (Hf : forall l,
                 filter (fun r => negb (in_rows r (rows ++ [row i]))) l =
                 filter (fun y => negb (y =? row i)%nat)
                   (filter (fun r => negb (in_rows r rows)) l)).
      { intros l. rewrite filter_filter_and. apply filter_ext. intros y.
        unfold in_rows. rewrite existsb_app. cbn [existsb].
        rewrite orb_false_r, negb_orb. reflexivity. }
      rewrite Hf, first_occurrences_filter, <- !app_assoc. reflexivity.
Qed.

Lemma selection_loop_spec (t : table) (sel : list QModelIndex) :
  selection_loop t sel =
  (first_occurrences (map row sel),
   map (fun r => t r 5) (first_occurrences (map row sel))).
Proof.
  unfold selection_loop. rewrite selection_loop_from. cbn [app].
  assert (H : forall l : list nat,
             filter (fun r => negb (in_rows r [])) l = l).
  { induction l as [|x l IH]; [reflexivity|]. cbn [filter].
    change (in_rows x []) with false. cbn [negb]. rewrite IH.
    reflexivity. }
  rewrite H. reflexivity.
Qed.

(** X9: [updateSelection] lists the file id of every selected row exactly
    once, in the order in which the rows first occur among the selected
    indexes, however many cells of a row are selected; with ids that tell
    rows apart no id is listed twice. *)
Theorem updateSelection_one_per_row (t : table) (sel : list QModelIndex) :
  selected (updateSelection t sel) = sel /\
  selected_files (updateSelection t sel) =
    map (fun r => t r 5) (first_occurrences (map row sel)) /\
  NoDup (fst (selection_loop t sel)) /\
  (forall r, In r (fst (selection_loop t sel)) <->
             exists i, In i sel /\ row i = r) /\
  length (selected_files (updateSelection t sel)) <= length sel /\
  ((forall r r', t r 5 = t r' 5 -> r = r') ->
   NoDup (selected_files (updateSelection t sel))).
Proof.
  unfold updateSelection. cbn [selected selected_files].
  rewrite selection_loop_spec. cbn [fst snd].
  split; [reflexivity|]. split; [reflexivity|].
  split; [apply first_occurrences_NoDup|]. split; [|split].
  - intros r. rewrite first_occurrences_In, in_map_iff.
    split; intros (i & H1 & H2); exists i; auto.
  - rewrite length_map.
    pose proof (first_occurrences_length (map row sel)) as H.
    rewrite length_map in H. exact H.
  - intros Hinj. apply NoDup_map_injective; [exact Hinj|].
    apply first_occurrences_NoDup.
Qed.

(** X10: the context menu offers the file actions (preview, split, add to
    timeline, remove) exactly when something is selected; it always opens
    with the import action and closes with the thumbnail view, and no
    separator opens it, closes it or follows another separator. *)
Theorem context_menu_entries (t : table) (sel : list QModelIndex) :
  (forall name,
     In name ["actionPreview_File"; "actionSplitClip";
              "actionAdd_to_Timeline"; "actionRemove_from_Project"] ->
     (In (Action name) (menu (contextMenuEvent t sel)) <-> sel <> [])) /\
  hd_error (menu (contextMenuEvent t sel)) = Some (Action "actionImportFiles") /\
  last (menu (contextMenuEvent t sel)) Separator =
    Action "actionThumbnailView" /\
  separators_apart true (menu (contextMenuEvent t sel)) = true /\
  context_menu_object (contextMenuEvent t sel) = "files" /\
  menu_selection (contextMenuEvent t sel) = updateSelection t sel.
Proof.
  unfold contextMenuEvent. cbn [menu context_menu_object menu_selection].
  unfold updateSelection at 1 2 3 4. cbn [selected].
  destruct sel as [|i sel].
  - split; [|repeat split].
    intros name Hname. split; [|congruence].
    cbn. intros [H | [H | [H | []]]]; try discriminate H;
      injection H as <-; cbn in Hname;
      decompose [or] Hname; try discriminate; contradiction.
  - split; [|repeat split].
    intros name Hname. split; [discriminate|]. intros _.
    cbn in Hname. decompose [or] Hname; subst; cbn; try tauto.
Qed.

(** X11: [startDrag] raises [IndexError] when nothing is selected, which
    is exactly when [updateSelection] lists no file, whatever [QPoint]
    does.  With a selection, where [QPoint] refuses the float halves of the
    item size its exception leaves [startDrag] and [drag.exec_()] is not
    reached; where it takes them, the drag is executed with the icon of
    the file that [updateSelection] lists first, at 48 by 48 with the hot
    spot at (24, 24), and with the mime data of all selected indexes. *)
Theorem startDrag_first_selected
  (t : table) (QPoint_float_error : option exn) (sel : list QModelIndex) :
  (selected_files (updateSelection t sel) = [] <-> sel = []) /\
  (sel = [] -> startDrag QPoint_float_error sel = Raise IndexError) /\
  (forall e,
     sel <> [] -> QPoint_float_error = Some e ->
     startDrag QPoint_float_error sel = Raise e) /\
  ((exists d, startDrag QPoint_float_error sel = Ret d) <->
   sel <> [] /\ QPoint_float_error = None) /\
  (forall d,
     startDrag QPoint_float_error sel = Ret d ->
     hd_error (selected_files (updateSelection t sel)) =
       Some (t (icon_row d) 5) /\
     pixmap_size d = (48, 48) /\
     hot_spot d = (24, 24) /\
     mime_indexes d = sel).
Proof.
  unfold updateSelection. cbn [selected_files].
  rewrite selection_loop_spec. cbn [snd].
  destruct sel as [|i sel]; cbn [startDrag list_first map first_occurrences].
  - split; [tauto|]. split; [reflexivity|]. split; [congruence|].
    split; [|intros d H; discriminate H].
    split; [intros [d H]; discriminate H | intros [H _]; congruence].
  - split; [split; discriminate|]. split; [discriminate|].
    split; [intros e _ ->; reflexivity|].
    destruct QPoint_float_error as [e|].
    + split; [|intros d H; discriminate H].
      split; [intros [d H]; discriminate H | intros [_ H]; discriminate H].
    + split; [split; [intros _; split; [discriminate | reflexivity]
                     | intros _; eexists; reflexivity]|].
      intros d H. injection H as <-. repeat split.
Qed.

(** ** [value_updated]: the name and the tags of a file *)

Lemma dict_get_set_same (k : string) (v : pyobj) (d : dict) :
  dict_get k (dict_set k v d) = Some v.
Proof.
  induction d as [|[k' v'] d IH]; cbn [dict_set dict_get].
  - rewrite String.eqb_refl. reflexivity.
  - destruct (k' =? k) eqn:Hk; cbn [dict_get].
    + rewrite String.eqb_refl. reflexivity.
    + rewrite Hk. exact IH.
Qed.

Lemma dict_get_set_other (k k' : string) (v : pyobj) (d : dict) :
  k' <> k -> dict_get k' (dict_set k v d) = dict_get k' d.
Proof.
  intros Hne. induction d as [|[k0 v0] d IH]; cbn [dict_set dict_get].
  - apply String.eqb_neq in Hne. rewrite String.eqb_sym, Hne. reflexivity.
  - destruct (k0 =? k) eqn:Hk; cbn [dict_get].
    + apply String.eqb_eq in Hk. subst k0.
      apply String.eqb_neq in Hne. rewrite String.eqb_sym, Hne.
      reflexivity.
    + rewrite IH. reflexivity.
Qed.

Lemma dict_set_present (k : string) (v : pyobj) (d : dict) :
  dict_get k d = Some v -> dict_set k v d = d.
Proof.
  induction d as [|[k' v'] d IH]; cbn [dict_set dict_get]; [discriminate|].
  destruct (k' =? k) eqn:Hk.
  - apply String.eqb_eq in Hk. subst k'. intros [= ->]. reflexivity.
  - intros H. rewrite (IH H). reflexivity.
Qed.

Lemma str_differs_false (s : string) (v : pyobj) :
  str_differs s v = false <-> v = PStr s.
Proof.
  destruct v as [s'| |]; cbn; try (split; discriminate).
  rewrite negb_false_iff, String.eqb_eq. split; congruence.
Qed.

(** What the assignments leave in the dictionary. *)
Lemma edit_name_tags_facts (name tags : string) (data : dict) (p : pyobj) :
  dict_get "path" data = Some p ->
  exists data',
    edit_name_tags name tags data = Done data' /\
    dict_get "name" data' =
      Some (PStr (if str_differs name p then name else "")) /\
    dict_get "tags" data' =
      (if dict_has "tags" data || negb (tags =? "")
       then Some (PStr tags) else None) /\
    (forall k, k <> "name" -> k <> "tags" ->
               dict_get k data' = dict_get k data).
Proof.
  intros Hp. unfold edit_name_tags. rewrite Hp.
  set (v := PStr (if str_differs name p then name else "")).
  assert (Hd1 : (if str_differs name p
                 then dict_set "name" (PStr name) data
                 else dict_set "name" (PStr "") data) =
                dict_set "name" v data)
    by (unfold v; destruct (str_differs name p); reflexivity).
  rewrite Hd1. clear Hd1. set (data1 := dict_set "name" v data).
  assert (Hn1 : dict_get "name" data1 = Some v)
    by apply dict_get_set_same.
  assert (Ht1 : dict_get "tags" data1 = dict_get "tags" data)
    by (apply dict_get_set_other; discriminate).
  assert (Hk1 : forall k, k <> "name" -> dict_get k data1 = dict_get k data)
    by (intros k Hk; apply dict_get_set_other; exact Hk).
  unfold dict_has. rewrite <- Ht1.
  destruct (dict_get "tags" data1) as [old|] eqn:Hold; cbn [orb].
  - destruct (str_differs tags old) eqn:Hdiff.
    + eexists. split; [reflexivity|]. split; [|split].
      * rewrite dict_get_set_other by discriminate. exact Hn1.
      * apply dict_get_set_same.
      * intros k Hk1' Hk2. rewrite dict_get_set_other by exact Hk2.
        apply Hk1, Hk1'.
    + apply str_differs_false in Hdiff. subst old.
      eexists. split; [reflexivity|]. split; [exact Hn1|].
      split; [exact Hold|]. intros k Hk1' _. apply Hk1, Hk1'.
  - destruct (tags =? "") eqn:Hempty; cbn [negb].
    + eexists. split; [reflexivity|]. split; [exact Hn1|].
      split; [exact Hold|]. intros k Hk1' _. apply Hk1, Hk1'.
    + eexists. split; [reflexivity|]. split; [|split].
      * rewrite dict_get_set_other by discriminate. exact Hn1.
      * apply dict_get_set_same.
      * intros k Hk1' Hk2. rewrite dict_get_set_other by exact Hk2.
        apply Hk1, Hk1'.
Qed.

(** X12: the edit of a row stores the name shown, or the empty string when
    the name shown is the file's path; it stores the tags shown, except
    that empty tags do not create a tags key; the path, the id and every
    other key of the file's data keep their values. *)
Theorem edit_name_tags_stores (name tags : string) (data : dict) (p : pyobj) :
  dict_get "path" data = Some p ->
  exists data',
    edit_name_tags name tags data = Done data' /\
    dict_get "name" data' =
      Some (PStr (if str_differs name p then name else "")) /\
    dict_get "tags" data' =
      (if dict_has "tags" data || negb (tags =? "")
       then Some (PStr tags) else None) /\
    (forall k, k <> "name" -> k <> "tags" ->
               dict_get k data' = dict_get k data).
Proof.
  apply edit_name_tags_facts.
Qed.

Lemma edit_name_tags_stores_witness :
  dict_get "path" [("id", PStr "F1"); ("path", PStr "/m/clip.mp4")] =
    Some (PStr "/m/clip.mp4") /\
  exists data',
    edit_name_tags "/m/clip.mp4" ""
      [("id", PStr "F1"); ("path", PStr "/m/clip.mp4")] = Done data' /\
    dict_get "name" data' = Some (PStr "") /\
    dict_get "tags" data' = None.
Proof.
  split; [reflexivity|].
  destruct (edit_name_tags_stores "/m/clip.mp4" ""
              [("id", PStr "F1"); ("path", PStr "/m/clip.mp4")]
              (PStr "/m/clip.mp4") eq_refl) as (data' & H1 & H2 & H3 & _).
  exists data'. split; [exact H1|]. split; [exact H2 | exact H3].
Defined.

(** X13: making the same edit again changes nothing: the dictionary that
    an edit left is left as it is by the same edit. *)
Theorem edit_name_tags_idempotent (name tags : string) (data data' : dict) :
  edit_name_tags name tags data = Done data' ->
  edit_name_tags name tags data' = Done data'.
Proof.
  intros Hedit.
  destruct (dict_get "path" data) as [p|] eqn:Hp;
    [|unfold edit_name_tags in Hedit; rewrite Hp in Hedit; discriminate].
  destruct (edit_name_tags_facts name tags data p Hp)
    as (d & Hd & Hname & Htags & Hframe).
  rewrite Hd in Hedit. injection Hedit as ->.
  assert (Hp' : dict_get "path" data' = Some p)
    by (rewrite Hframe by discriminate; exact Hp).
  unfold edit_name_tags. rewrite Hp'.
  assert (Hd1 : (if str_differs name p
                 then dict_set "name" (PStr name) data'
                 else dict_set "name" (PStr "") data') = data').
  { destruct (str_differs name p); apply dict_set_present; exact Hname. }
  rewrite Hd1, Htags.
  destruct (dict_has "tags" data || negb (tags =? "")) eqn:Hcase.
  - assert (Hsame : str_differs tags (PStr tags) = false)
      by (apply str_differs_false; reflexivity).
    rewrite Hsame. reflexivity.
  - apply orb_false_iff in Hcase as [_ Hempty]. rewrite Hempty.
    reflexivity.
Qed.

Lemma edit_name_tags_idempotent_witness :
  edit_name_tags "Holiday" "beach"
    [("id", PStr "F1"); ("path", PStr "/m/clip.mp4")] =
    Done [("id", PStr "F1"); ("path", PStr "/m/clip.mp4");
          ("name", PStr "Holiday"); ("tags", PStr "beach")] /\
  edit_name_tags "Holiday" "beach"
    [("id", PStr "F1"); ("path", PStr "/m/clip.mp4");
     ("name", PStr "Holiday"); ("tags", PStr "beach")] =
    Done [("id", PStr "F1"); ("path", PStr "/m/clip.mp4");
          ("name", PStr "Holiday"); ("tags", PStr "beach")].
Proof.
  split; [reflexivity|].
  exact (edit_name_tags_idempotent "Holiday" "beach"
           [("id", PStr "F1"); ("path", PStr "/m/clip.mp4")] _ eq_refl).
Defined.

Lemma value_updated_step (Q : query) (t : table) (r : nat) (fm : files_model) :
  (forall d, save_error Q d = None) ->
  snd (value_updated Q t r fm) = fm \/
  exists data',
    snd (value_updated Q t r fm) =
    mk_files_model false (saves fm ++ [(true, data')]).
Proof.
  intros Hsave. unfold value_updated.
  destruct (get_by_id Q (t r 5)) as [data|]; [|left; reflexivity].
  destruct (edit_name_tags (t r 1) (t r 2) data) as [data'|e];
    [|left; reflexivity].
  rewrite Hsave. right. exists data'. reflexivity.
Qed.

(** X14: with a project whose saves do not raise, the files model ignores
    update signals only while [value_updated] saves: from a model that is
    not ignoring them, after any sequence of edits the flag is off again,
    every save it made ran with the flag on, and there is at most one save
    per edit, added after those made before. *)
Theorem updates_ignored_only_during_saves
  (Q : query) (t : table) (rows : list nat) (fm : files_model) :
  (forall d, save_error Q d = None) ->
  ignore_update_signal fm = false -> saved_quietly fm ->
  ignore_update_signal (value_updates Q t rows fm) = false /\
  saved_quietly (value_updates Q t rows fm) /\
  exists more,
    saves (value_updates Q t rows fm) = saves fm ++ more /\
    length more <= length rows.
Proof.
  intros Hsave. revert fm. unfold value_updates.
  induction rows as [|r rows IH]; intros fm Hflag Hquiet.
  - cbn. split; [exact Hflag|]. split; [exact Hquiet|].
    exists []. rewrite app_nil_r. split; [reflexivity | cbn; lia].
  - cbn [fold_left].
    destruct (value_updated_step Q t r fm Hsave) as [-> | [data' ->]].
    + destruct (IH fm Hflag Hquiet) as (H1 & H2 & more & H3 & H4).
      split; [exact H1|]. split; [exact H2|].
      exists more. split; [exact H3 | cbn; lia].
    + destruct (IH (mk_files_model false (saves fm ++ [(true, data')])))
        as (H1 & H2 & more & H3 & H4).
      * reflexivity.
      * unfold saved_quietly. cbn [saves]. apply Forall_app.
        split; [exact Hquiet | repeat constructor].
      * split; [exact H1|]. split; [exact H2|].
        exists ((true, data') :: more). cbn [saves] in H3.
        rewrite H3, <- app_assoc. split; [reflexivity | cbn; lia].
Qed.

Lemma updates_ignored_only_during_saves_witness :
  (forall d, save_error demo_query d = None) /\
  ignore_update_signal (value_updates demo_query demo_table [0; 7]
                          (mk_files_model false [])) = false /\
  exists more,
    saves (value_updates demo_query demo_table [0; 7]
             (mk_files_model false [])) = more /\
    length more <= 2.
Proof.
  assert (Hsave : forall d, save_error demo_query d = None)
    by reflexivity.
  destruct (updates_ignored_only_during_saves demo_query demo_table [0; 7]
              (mk_files_model false []) Hsave eq_refl (Forall_nil _))
    as (H1 & _ & more & H3 & H4).
  split; [exact Hsave|]. split; [exact H1|].
  exists more. split; [exact H3 | exact H4].
Defined.

(** X15: [value_updated] goes through exactly when the file of the row is
    found, its data has a path and the save does not raise.  A missing file
    is an [AttributeError] and a missing path a [KeyError], both before
    anything is touched; an exception from the save leaves the files model
    ignoring update signals. *)
Theorem value_updated_failures
  (Q : query) (t : table) (r : nat) (fm : files_model) :
  (fst (value_updated Q t r fm) = Done tt <->
   exists data data',
     get_by_id Q (t r 5) = Some data /\
     dict_get "path" data <> None /\
     edit_name_tags (t r 1) (t r 2) data = Done data' /\
     save_error Q data' = None) /\
  (get_by_id Q (t r 5) = None ->
   value_updated Q t r fm = (Failed AttributeError, fm)) /\
  (forall data,
     get_by_id Q (t r 5) = Some data -> dict_get "path" data = None ->
     value_updated Q t r fm = (Failed (KeyError "path"), fm)) /\
  (forall data data' e,
     get_by_id Q (t r 5) = Some data ->
     edit_name_tags (t r 1) (t r 2) data = Done data' ->
     save_error Q data' = Some e ->
     value_updated Q t r fm = (Failed e, mk_files_model true (saves fm))).
Proof.
  unfold value_updated. split; [|split; [|split]].
  - destruct (get_by_id Q (t r 5)) as [data|].
    + destruct (dict_get "path" data) as [p|] eqn:Hp.
      * destruct (edit_name_tags_facts (t r 1) (t r 2) data p Hp)
          as (data' & Hd & _). rewrite Hd.
        destruct (save_error Q data') as [e|] eqn:Hs; cbn [fst]; split.
        -- discriminate.
        -- intros (d & d' & [= <-] & _ & Hd' & Hs').
           rewrite Hd in Hd'. injection Hd' as <-. congruence.
        -- intros _. exists data, data'.
           rewrite Hp. repeat split; try assumption. discriminate.
        -- reflexivity.
      * unfold edit_name_tags. rewrite Hp. cbn [fst]. split; [discriminate|].
        intros (d & d' & [= <-] & Hne & _). congruence.
    + cbn [fst]. split; [discriminate|].
      intros (d & d' & H & _). discriminate H.
  - intros ->. reflexivity.
  - intros data -> Hp. unfold edit_name_tags. rewrite Hp. reflexivity.
  - intros data data' e -> -> ->. reflexivity.
Qed.

(** ** Which files a drop registers *)

Lemma drop_one_registers (E : env) (u : url) (w : world) (p : string) :
  reports_path E ->
  registered p (snd (drop_one E u w)) <->
  registered p w \/ importable E u p.
Proof.
  intros Hecho. unfold importable. split.
  - destruct (drop_one_effect E u w)
      as [(Hf & _) | (_ & _ & Hs & Hp & Hreg & c & fd & HC & HR & _ & Hf)];
      unfold registered; rewrite Hf; [auto|].
    rewrite map_app, in_app_iff. intros [H | [H | []]]; [auto|]. right.
    rewrite path_set_media_type, (Hecho _ c fd HC HR) in H. subst p.
    repeat split; try assumption. exists c, fd. split; assumption.
  - intros [H | (Hs & Hp & -> & Hreg & c & fd & HC & HR)].
    + apply (registered_extends p w); [apply drop_one_extends | exact H].
    + set (q := normalize_spec (urlpath u)) in *.
      destruct (File_get q w) eqn:Hget.
      * apply (registered_extends q w); [apply drop_one_extends|].
        apply File_get_registered. congruence.
      * apply File_get_unregistered in Hget.
        rewrite (drop_one_file E u w Hs Hp). cbv zeta. fold q. rewrite Hreg.
        rewrite (add_file_saves E q (after_event w (EvLogInfo q)) c fd
                   Hget HC HR).
        cbn [truthy snd]. unfold registered, after_event. cbn [files].
        rewrite map_app, in_app_iff. right. left.
        rewrite path_set_media_type. exact (Hecho q c fd HC HR).
Qed.

(** X16: after a drop that ran to its end, the registered paths are those
    registered before and the resolved paths of the dropped file URIs that
    are regular files a reader opens, no more and no fewer, in whatever
    order and however often the URIs were given (the reader naming the file
    it opened). *)
Theorem drop_registers_readable_files
  (E : env) (urls : list url) (w w' : world) (items : list item) :
  reports_path E ->
  dropEvent E urls w = (Ret items, w') ->
  forall p,
    registered p w' <->
    registered p w \/ exists u, In u urls /\ importable E u p.
Proof.
  intros Hecho. revert w items.
  induction urls as [|u rest IH]; intros w items Hrun p.
  - cbn in Hrun. injection Hrun as _ <-.
    split; [auto | intros [H | (u & [] & _)]; exact H].
  - rewrite dropEvent_cons in Hrun.
    pose proof (drop_one_registers E u w p Hecho) as Hstep.
    destruct (drop_one E u w) as [[i|e] w1]; [|discriminate Hrun].
    destruct (dropEvent E rest w1) as [[more|e] w2] eqn:Hrest;
      [|discriminate Hrun].
    injection Hrun as _ <-. cbn [snd] in Hstep.
    rewrite (IH w1 more Hrest p), Hstep. cbn [In]. split.
    + intros [[H | H] | (u' & Hin & H)]; [auto | right | right].
      * exists u. auto.
      * exists u'. auto.
    + intros [H | (u' & [<- | Hin] & H)]; [auto | auto |].
      right. exists u'. auto.
Qed.

Lemma drop_registers_readable_files_witness :
  reports_path studio /\
  (registered "/m/song.mp3"
     (snd (dropEvent studio
             [file_url "/m/broken.avi"; file_url "/m/song.mp3"]
             empty_project)) <->
   registered "/m/song.mp3" empty_project \/
   exists u,
     In u [file_url "/m/broken.avi"; file_url "/m/song.mp3"] /\
     importable studio u "/m/song.mp3").
Proof.
  split; [exact studio_reports_path|].
  exact (drop_registers_readable_files studio
           [file_url "/m/broken.avi"; file_url "/m/song.mp3"]
           empty_project _ _ studio_reports_path eq_refl "/m/song.mp3").
Defined.
